(** * Rabaul Hotel front-end: content fetch, normalisation and booking form

    A shallow embedding of the TypeScript sources:
      - the wordpress module: its config resolution, [getPosts],
        [getPostBySlug], [getFeaturedImageUrl];
      - the api module: its config resolution, [fetchAPI], [getPosts],
        [getRooms], [getPostBySlug], [getAmenities], [getExploreRabaul];
      - the proxy route handler [GET] with [ALLOWED_PATHS];
      - the component [RoomTypesSection]: [getNormalizedRooms], [getImageUrl],
        the loading effect, the removal of tags from the content;
      - the component [BookingForm]: room name, rate, short description, the
        loading of the rooms with their rates, the sorted list, date picks,
        room and guest edits, [validateForm], [handleSubmit].

    Conventions.  A JavaScript string is a [string] (a sequence of bytes, the
    UTF-8 encoding of the text); an integer-valued JavaScript number is a [Z];
    a [Date] is the [Z] of its millisecond timestamp; an optional field
    ([f?: T], or a value that may be [undefined]/[null]) is an [option];
    [console.*] output is left out except in the two config resolvers.
    What the code takes from outside is a parameter of the definitions that
    use it: [fetch], [JSON.parse], the [URL] class, [toUpperCase], and
    [addDays] and [format] of date-fns. *)

From Stdlib Require Import String Ascii List ZArith Lia Bool DecimalString.
From Stdlib Require Import Sorting.Sorted Sorting.Permutation.
From ExtLib Require Import Structures.Monad Structures.MonadExc Data.Monads.EitherMonad.
Import ListNotations.
Import MonadNotation.

Local Open Scope string_scope.
Local Open Scope Z_scope.
Local Open Scope monad_scope.

(* ===================================================================== *)
(** ** JavaScript primitives used by the sources *)
(* ===================================================================== *)

Module JS.

(** Truthiness of a string: every string but the empty one. *)
Definition truthy_string (s : string) : bool := negb (String.eqb s "").

(** Truthiness of a possibly absent string. *)
Definition truthy (o : option string) : bool :=
  match o with
  | Some s => truthy_string s
  | None => false
  end.

(** Truthiness of an integer-valued number: every one but [0]. *)
Definition truthy_number (o : option Z) : bool :=
  match o with
  | Some n => negb (n =? 0)
  | None => false
  end.

(** [a || b] between two possibly absent strings. *)
Definition or_opt (a b : option string) : option string :=
  if truthy a then a else b.

(** [a || b] where [b] is a string: the result is a string. *)
Definition or_string (a : option string) (b : string) : string :=
  match a with
  | Some s => if truthy_string s then s else b
  | None => b
  end.

(** [String(n)] and [`${n}`] for an integer-valued number. *)
Definition Number_toString (n : Z) : string :=
  NilZero.string_of_int (Z.to_int n).

(** [s.split(sep)] for a one-character separator: never the empty list,
    [''.split(sep)] is [['']]. *)
Fixpoint split (sep : ascii) (s : string) : list string :=
  match s with
  | EmptyString => [""]
  | String c s' =>
      if Ascii.eqb c sep then "" :: split sep s'
      else match split sep s' with
           | w :: ws => String c w :: ws
           | [] => [String c ""]
           end
  end.

(** [l.join(sep)]. *)
Definition join (sep : string) (l : list string) : string :=
  String.concat sep l.

(** [l.filter(Boolean)] on a list of strings: drops the empty ones. *)
Definition filter_Boolean (l : list string) : list string :=
  filter truthy_string l.

(** [l.includes(x)] on a list of strings. *)
Definition includes (l : list string) (x : string) : bool :=
  existsb (String.eqb x) l.

(** [s.startsWith(p)]. *)
Definition startsWith (s p : string) : bool := String.prefix p s.

(** [s.charAt(0)]: the first character as a string, [''] on ['']. *)
Definition charAt0 (s : string) : string :=
  match s with
  | EmptyString => ""
  | String c _ => String c ""
  end.

(** The number of bytes of the UTF-8 character that a lead byte starts: one
    below 192, two below 224, three below 240, four from 240 on.  A character
    of one to three bytes is one UTF-16 code unit of the string, a character
    of four bytes is two (a surrogate pair). *)
Definition utf8_width (lead : ascii) : nat :=
  let n := nat_of_ascii lead in
  if Nat.ltb n 192 then 1%nat
  else if Nat.ltb n 224 then 2%nat
  else if Nat.ltb n 240 then 3%nat
  else 4%nat.

(** The first [n] bytes of a string, and what follows them. *)
Fixpoint take_bytes (n : nat) (s : string) : string :=
  match n, s with
  | S n', String c s' => String c (take_bytes n' s')
  | _, _ => ""
  end.

Fixpoint drop_bytes (n : nat) (s : string) : string :=
  match n, s with
  | S n', String _ s' => drop_bytes n' s'
  | _, _ => s
  end.

(** A parsed JSON value.  [undefined] is not a JSON value: where a value may
    be missing, the model uses [option json]. *)
#[warnings="-register-all"] Inductive json : Type :=
| JNull
| JBool (b : bool)
| JNum (n : Z)
| JStr (s : string)
| JArr (items : list json)
| JObj (fields : list (string * json)).

(** An object used as a map from string keys, in the order the keys were
    added.  [o[k]] on its fields: [None] is [undefined]. *)
Fixpoint get_field {V : Type} (k : string) (fields : list (string * V)) : option V :=
  match fields with
  | [] => None
  | (k', v) :: rest => if String.eqb k k' then Some v else get_field k rest
  end.

(** [k in o] on the fields of a plain object. *)
Definition has_field {V : Type} (k : string) (fields : list (string * V)) : bool :=
  match get_field k fields with
  | Some _ => true
  | None => false
  end.

(** [{...o, k: v}]: the key keeps its place when [o] has it, and comes last
    otherwise. *)
Fixpoint set_field {V : Type} (k : string) (v : V) (fields : list (string * V))
  : list (string * V) :=
  match fields with
  | [] => [(k, v)]
  | (k', v') :: rest =>
      if String.eqb k k' then (k, v) :: rest
      else (k', v') :: set_field k v rest
  end.

(** [`${v}`] for a string that may be [undefined]. *)
Definition template (o : option string) : string :=
  match o with
  | Some s => s
  | None => "undefined"
  end.

(** *** [URLSearchParams] *)

(** The entries of a [URLSearchParams]: decoded name/value pairs in the order
    of the query string, names may repeat. *)
Definition SearchParams : Type := list (string * string).

(** [searchParams.get(name)]: the first value of that name, [None] for
    [null]. *)
Definition searchParams_get (name : string) (sp : SearchParams) : option string :=
  get_field name sp.

(** The bytes the [application/x-www-form-urlencoded] serializer leaves as
    they are: ASCII letters and digits and [* - . _]. *)
Definition urlencoded_safe (c : ascii) : bool :=
  let n := nat_of_ascii c in
  (Nat.leb 48 n && Nat.leb n 57) || (Nat.leb 65 n && Nat.leb n 90)
  || (Nat.leb 97 n && Nat.leb n 122)
  || Nat.eqb n 42 || Nat.eqb n 45 || Nat.eqb n 46 || Nat.eqb n 95.

Definition hex_digit (n : nat) : ascii :=
  if Nat.ltb n 10 then ascii_of_nat (48 + n) else ascii_of_nat (55 + n).

(** One byte serialized: a space is [+], an unsafe byte is [%XX]. *)
Definition urlencode_byte (c : ascii) : string :=
  if Ascii.eqb c " "%char then "+"
  else if urlencoded_safe c then String c ""
  else let n := nat_of_ascii c in
       String "%"%char (String (hex_digit (Nat.div n 16))
                          (String (hex_digit (Nat.modulo n 16)) "")).

Fixpoint urlencode (s : string) : string :=
  match s with
  | EmptyString => ""
  | String c s' => urlencode_byte c ++ urlencode s'
  end.

(** [new URLSearchParams(obj).toString()] for an object of string values. *)
Definition URLSearchParams_toString (obj : list (string * string)) : string :=
  join "&" (map (fun kv => urlencode (fst kv) ++ "=" ++ urlencode (snd kv)) obj).

(** *** [fetch] *)

(** A thrown [Error], by its message. *)
Definition Error : Type := string.

(** What the code reads of a [Response].  [text] is the outcome of
    [await response.text()]: the body, or the error it rejects with. *)
Record Response : Type := mkResponse {
  ok : bool;
  status : Z;
  statusText : string;
  text : Error + string
}.

(** The outcome of [await fetch(url)]: the promise rejects (no connection,
    bad URL) or resolves to a response. *)
Inductive fetch_outcome : Type :=
| Rejected (e : Error)
| Resolved (r : Response).

(** [await fetch(url)] in the error monad. *)
Definition await (o : fetch_outcome) : Error + Response :=
  match o with
  | Rejected e => raise e
  | Resolved r => ret r
  end.

(** [process.env], with the variables the sources read. *)
Record ProcessEnv : Type := mkEnv {
  NEXT_PUBLIC_WORDPRESS_URL : option string;
  NEXT_PUBLIC_WORDPRESS_API_URL : option string;
  NODE_ENV : option string
}.

(** [process.env.NODE_ENV !== 'production'] *)
Definition not_production (env : ProcessEnv) : bool :=
  match NODE_ENV env with
  | Some m => negb (String.eqb m "production")
  | None => true
  end.

(** A call of [console.warn], [console.log] or [console.error], with its
    string arguments. *)
Inductive console_call : Type :=
| console_warn (args : list string)
| console_log (args : list string)
| console_error (args : list string).

(** *** More of the language, for the rest of the code *)

(** Truthiness of a JSON value. *)
Definition truthy_json (j : json) : bool :=
  match j with
  | JNull => false
  | JBool b => b
  | JNum n => negb (n =? 0)
  | JStr s => truthy_string s
  | JArr _ => true
  | JObj _ => true
  end.

(** The truthiness of [x.length] for a parsed value [x]: a [TypeError] on
    [null]; the length of an array or a string; the [length] field of an
    object; [undefined] (falsy) on a number or a boolean. *)
Definition length_truthy (x : json) : Error + bool :=
  match x with
  | JNull => raise "Cannot read properties of null (reading 'length')"
  | JArr items => ret (negb (Nat.eqb (List.length items) 0))
  | JStr s => ret (truthy_string s)
  | JObj fields =>
      ret (match get_field "length" fields with
           | Some v => truthy_json v
           | None => false
           end)
  | JBool _ => ret false
  | JNum _ => ret false
  end.

(** [x[0]] for a parsed value [x] that is not [null]; [None] is
    [undefined].  Of a string it is the first character (here: byte). *)
Definition index0 (x : json) : option json :=
  match x with
  | JArr items => hd_error items
  | JStr s => if truthy_string s then Some (JStr (charAt0 s)) else None
  | JObj fields => get_field "0" fields
  | _ => None
  end.

(** A value passed as a request parameter ([Record<string, any>], for the
    scalar values the callers pass). *)
Inductive scalar : Type :=
| SUndefined
| SNull
| SBool (b : bool)
| SNum (n : Z)
| SStr (s : string).

(** [String(value)] *)
Definition String_of (v : scalar) : string :=
  match v with
  | SUndefined => "undefined"
  | SNull => "null"
  | SBool true => "true"
  | SBool false => "false"
  | SNum n => Number_toString n
  | SStr s => s
  end.

(** [value !== undefined] *)
Definition is_defined (v : scalar) : bool :=
  match v with
  | SUndefined => false
  | _ => true
  end.

(** [value !== undefined && value !== null] *)
Definition is_present (v : scalar) : bool :=
  match v with
  | SUndefined => false
  | SNull => false
  | _ => true
  end.

(** [searchParams.set(name, value)]: the first entry of that name takes the
    value and the later ones go; a new name comes last. *)
Fixpoint searchParams_set (name value : string) (sp : SearchParams) : SearchParams :=
  match sp with
  | [] => [(name, value)]
  | (k, v) :: rest =>
      if String.eqb k name
      then (name, value) :: filter (fun kv => negb (String.eqb (fst kv) name)) rest
      else (k, v) :: searchParams_set name value rest
  end.

(** The value of a hexadecimal digit. *)
Definition hex_value (c : ascii) : option nat :=
  let n := nat_of_ascii c in
  if Nat.leb 48 n && Nat.leb n 57 then Some (n - 48)%nat
  else if Nat.leb 65 n && Nat.leb n 70 then Some (n - 55)%nat
  else if Nat.leb 97 n && Nat.leb n 102 then Some (n - 87)%nat
  else None.

(** Percent-decoding: [%XX] with two hexadecimal digits is the byte, any
    other byte stands for itself. *)
Fixpoint percent_decode (s : string) : string :=
  match s with
  | EmptyString => ""
  | String c s' =>
      if Ascii.eqb c "%"%char then
        match s' with
        | String h (String l rest) =>
            match hex_value h, hex_value l with
            | Some a, Some b =>
                String (ascii_of_nat (16 * a + b)) (percent_decode rest)
            | _, _ => String c (percent_decode s')
            end
        | _ => String c (percent_decode s')
        end
      else String c (percent_decode s')
  end.

(** [+] read as a space. *)
Fixpoint plus_to_space (s : string) : string :=
  match s with
  | EmptyString => ""
  | String c s' =>
      String (if Ascii.eqb c "+"%char then " "%char else c) (plus_to_space s')
  end.

(** A name or a value of a query string, decoded. *)
Definition urldecode (s : string) : string := percent_decode (plus_to_space s).

(** The part of a string before the first [sep] and the part after it; the
    second part is empty when there is no [sep]. *)
Fixpoint cut_at (sep : ascii) (s : string) : string * string :=
  match s with
  | EmptyString => ("", "")
  | String c s' =>
      if Ascii.eqb c sep then ("", s')
      else (String c (fst (cut_at sep s')), snd (cut_at sep s'))
  end.

(** The entries of a query string (without its question mark), as
    [new URL(...).searchParams] gives them: the pieces between the ampersands,
    empty pieces skipped, each cut at its first equals sign and decoded. *)
Definition parse_query (query : string) : SearchParams :=
  map (fun piece => (urldecode (fst (cut_at "="%char piece)),
                     urldecode (snd (cut_at "="%char piece))))
      (filter_Boolean (split "&"%char query)).

(** The bytes of a serialized name or value. *)
Definition urlencoded_byte_ok (c : ascii) : bool :=
  urlencoded_safe c || Ascii.eqb c "+"%char || Ascii.eqb c "%"%char.

(** A byte that is neither an ampersand nor an equals sign. *)
Definition not_separator (c : ascii) : bool :=
  negb (Ascii.eqb c "&"%char) && negb (Ascii.eqb c "="%char).

(** The serialization of one entry, [name=value]. *)
Definition urlencode_entry (kv : string * string) : string :=
  urlencode (fst kv) ++ "=" ++ urlencode (snd kv).

(** All the bytes of a string satisfy a test. *)
Fixpoint string_forallb (p : ascii -> bool) (s : string) : bool :=
  match s with
  | EmptyString => true
  | String c s' => p c && string_forallb p s'
  end.

End JS.

(* ===================================================================== *)
(** ** Fallback chains, in the words of the specification *)
(* ===================================================================== *)

Module Fallback.
Import JS.

(** A preference order as the specification words it: the candidates in
    order, the first available one (present and not empty) wins, and the
    default is taken when none is. *)
Fixpoint first_available (candidates : list (option string)) (default : string)
  : string :=
  match candidates with
  | [] => default
  | Some u :: rest =>
      if truthy_string u then u else first_available rest default
  | None :: rest => first_available rest default
  end.

(** The base URL in the words of the specification: the primary variable,
    then the legacy one, then the empty string for "unset". *)
Definition resolveBaseURL (env : ProcessEnv) : string :=
  first_available
    [NEXT_PUBLIC_WORDPRESS_URL env; NEXT_PUBLIC_WORDPRESS_API_URL env] "".

End Fallback.

(* ===================================================================== *)
(** ** The wordpress module: config resolution *)
(* ===================================================================== *)

Module Wordpress.
Import JS.

(** [const WORDPRESS_API_URL = process.env.NEXT_PUBLIC_WORDPRESS_URL ||
      process.env.NEXT_PUBLIC_WORDPRESS_API_URL || ''] *)
Definition WORDPRESS_API_URL (env : ProcessEnv) : string :=
  or_string
    (or_opt (NEXT_PUBLIC_WORDPRESS_URL env) (NEXT_PUBLIC_WORDPRESS_API_URL env))
    "".

(** Loading the module: the console output and either the error thrown or the
    resolved constant. *)
Definition load (env : ProcessEnv) : list console_call * (Error + string) :=
  let url := WORDPRESS_API_URL env in
  ((if not_production env then
      if negb (truthy_string url) then
        [console_warn ["WordPress API URL is not set in environment variables. Please set NEXT_PUBLIC_WORDPRESS_URL"]]
      else
        [console_log ["Using WordPress API URL:"; url]]
    else []),
   ret url).

Section Requests.

(** [JSON.parse], behind [response.json()]. *)
Variable JSON_parse : string -> Error + json.
(** The network: what [fetch] of a URL gives. *)
Variable fetch : string -> fetch_outcome.
Variable env : ProcessEnv.

(** [const defaultParams = { _embed: true, per_page: 100, ...params }], for
    parameter names that are not array indices (those an object lists
    first). *)
Definition defaultParams (params : list (string * scalar)) : list (string * scalar) :=
  fold_left (fun acc kv => set_field (fst kv) (snd kv) acc) params
            [("_embed", SBool true); ("per_page", SNum 100)].

(** [new URLSearchParams(Object.entries(defaultParams)
       .filter(([_, value]) => value !== undefined)
       .map(([key, value]) => [key, String(value)])).toString()] *)
Definition queryString (params : list (string * scalar)) : string :=
  URLSearchParams_toString
    (map (fun kv => (fst kv, String_of (snd kv)))
         (filter (fun kv => is_defined (snd kv)) (defaultParams params))).

(** The URL [getPosts] fetches. *)
Definition posts_url (postType : string) (params : list (string * scalar)) : string :=
  WORDPRESS_API_URL env ++ "/wp-json/wp/v2/" ++ postType ++ "?" ++ queryString params.

(** [export async function getPosts(postType, params = {})] *)
Definition getPosts (postType : string) (params : list (string * scalar))
  : Error + json :=
  response <- await (fetch (posts_url postType params)) ;;
  if negb (ok response) then raise ("Failed to fetch " ++ postType)
  else
    body <- text response ;;
    JSON_parse body.

(** [export async function getPostBySlug(postType, slug)]; the result [None]
    is [undefined]. *)
Definition getPostBySlug (postType slug : string) : Error + option json :=
  posts <- getPosts postType [("slug", SStr slug); ("_embed", SBool true)] ;;
  some <- length_truthy posts ;;
  if negb some then raise ("No " ++ postType ++ " found with slug: " ++ slug)
  else ret (index0 posts).

(** [media?.source_url || null] *)
Definition source_url_or_null (media : json) : json :=
  match media with
  | JObj fields =>
      match get_field "source_url" fields with
      | Some v => if truthy_json v then v else JNull
      | None => JNull
      end
  | _ => JNull
  end.

(** The URL [getFeaturedImageUrl] fetches. *)
Definition media_url (mediaId : Z) : string :=
  WORDPRESS_API_URL env ++ "/wp-json/wp/v2/media/" ++ Number_toString mediaId.

(** [export async function getFeaturedImageUrl(mediaId)]; [JNull] is
    [null]. *)
Definition getFeaturedImageUrl (mediaId : Z) : Error + json :=
  catch
    (response <- await (fetch (media_url mediaId)) ;;
     if negb (ok response) then ret JNull
     else
       body <- text response ;;
       media <- JSON_parse body ;;
       ret (source_url_or_null media))
    (fun error => ret JNull).

End Requests.

End Wordpress.

(* ===================================================================== *)
(** ** The api module: config resolution and [getRooms] *)
(* ===================================================================== *)

Module Api.
Import JS.

(** [const WORDPRESS_API_URL = process.env.NEXT_PUBLIC_WORDPRESS_URL ||
      process.env.NEXT_PUBLIC_WORDPRESS_API_URL] *)
Definition WORDPRESS_API_URL (env : ProcessEnv) : option string :=
  or_opt (NEXT_PUBLIC_WORDPRESS_URL env) (NEXT_PUBLIC_WORDPRESS_API_URL env).

(** Loading the module, up to the definition of the constant:
    [if (!WORDPRESS_API_URL) { if (NODE_ENV !== 'production') throw ...;
       else console.error(...) }] *)
Definition load (env : ProcessEnv) : list console_call * (Error + option string) :=
  let url := WORDPRESS_API_URL env in
  if negb (truthy url) then
    if not_production env then
      ([], raise "WordPress API URL is not defined. Please set NEXT_PUBLIC_WORDPRESS_URL or NEXT_PUBLIC_WORDPRESS_API_URL in your environment variables.")
    else
      ([console_error ["WordPress API URL is not configured"]], ret url)
  else ([], ret url).

(** [const API_BASE_URL = WORDPRESS_API_URL ? `${WORDPRESS_API_URL}/wp-json/wp/v2` : ''] *)
Definition API_BASE_URL (env : ProcessEnv) : string :=
  match WORDPRESS_API_URL env with
  | Some u => if truthy_string u then u ++ "/wp-json/wp/v2" else ""
  | None => ""
  end.

Section GetRooms.

(** [JSON.parse]: the value, or the [SyntaxError] it throws. *)
Variable JSON_parse : string -> Error + json.
(** The network: what [fetch] of a URL gives. *)
Variable fetch : string -> fetch_outcome.
Variable env : ProcessEnv.

(** The URL [getRooms] fetches. *)
Definition rooms_url : string :=
  template (WORDPRESS_API_URL env) ++ "/wp-json/wp/v2/rooms?per_page=50&_embed=true".

(** [rooms.length], read for the log line: a [TypeError] on [null]. *)
Definition read_length (rooms : json) : Error + unit :=
  match rooms with
  | JNull => raise "Cannot read properties of null (reading 'length')"
  | _ => ret tt
  end.

(** [export async function getRooms()]: the value its promise resolves to,
    or the error it rejects with. *)
Definition getRooms : Error + json :=
  catch
    (response <- await (fetch rooms_url) ;;
     (if negb (ok response) then
        errorText <- text response ;;
        raise ("Failed to fetch rooms: " ++ Number_toString (status response)
               ++ " " ++ statusText response)
      else ret tt) ;;
     body <- text response ;;
     if negb (truthy_string body) then ret (JArr [])
     else
       catch
         (rooms <- JSON_parse body ;;
          read_length rooms ;;
          ret rooms)
         (fun parseError => raise "Invalid JSON response from server"))
    (fun error => ret (JArr [])).

(** The failure modes of the rooms request: the network fails, the status
    is not 2xx, the body cannot be read, the body is empty, or the body is
    not JSON. *)
Inductive rooms_failure : fetch_outcome -> Prop :=
| network_error e : rooms_failure (Rejected e)
| non_2xx r : ok r = false -> rooms_failure (Resolved r)
| unreadable_body r e : text r = inl e -> rooms_failure (Resolved r)
| empty_body r : text r = inr "" -> rooms_failure (Resolved r)
| malformed_body r b e :
    text r = inr b -> JSON_parse b = inl e -> rooms_failure (Resolved r).

End GetRooms.

Section FetchAPI.

(** [JSON.parse], behind [response.json()]. *)
Variable JSON_parse : string -> Error + json.
(** The network: what [fetch] of a URL gives. *)
Variable fetch : string -> fetch_outcome.
Variable env : ProcessEnv.
(** [new URL(s)]: a parsed URL, or the [TypeError] for a string that is not
    an absolute URL. *)
Variable URL : Type.
Variable URL_new : string -> Error + URL.
(** [url.searchParams]: the entries of the query of a parsed URL. *)
Variable URL_searchParams : URL -> SearchParams.
(** [url.toString()] once the query of [url] holds the given entries. *)
Variable URL_toString : URL -> SearchParams -> string.

(** [Object.entries(params).forEach(([key, value]) => {
       if (value !== undefined && value !== null)
         url.searchParams.set(key, String(value)) })] *)
Definition set_params (params : list (string * scalar)) (sp : SearchParams)
  : SearchParams :=
  fold_left
    (fun acc kv =>
       if is_present (snd kv)
       then searchParams_set (fst kv) (String_of (snd kv)) acc
       else acc)
    params sp.

(** The part of [fetchAPI] after the URL is built. *)
Definition request (href : string) : Error + json :=
  response <- await (fetch href) ;;
  if negb (ok response) then
    errorText <- text response ;;
    raise ("API request failed: " ++ Number_toString (status response))
  else
    body <- text response ;;
    JSON_parse body.

(** [export async function fetchAPI(endpoint, params = {})]: its outcome, and
    the URLs fetched on the way.  The [catch] block logs and throws the error
    again. *)
Definition fetchAPI (endpoint : string) (params : list (string * scalar))
  : (Error + json) * list string :=
  match URL_new (API_BASE_URL env ++ "/" ++ endpoint) with
  | inl error => (raise error, [])
  | inr url =>
      let href := URL_toString url (set_params params (URL_searchParams url)) in
      (request href, [href])
  end.

(** [export async function getPosts(type)] *)
Definition getPosts (type : string) : Error + json :=
  fst (fetchAPI type [("per_page", SNum 100); ("_embed", SBool true)]).

(** [export async function getPostBySlug(type, slug)]; [Some JNull] is
    [null] and [None] is [undefined]. *)
Definition getPostBySlug (type slug : string) : Error + option json :=
  catch
    (data <- fst (fetchAPI type [("slug", SStr slug); ("_embed", SBool true)]) ;;
     some <- length_truthy data ;;
     ret (if (some : bool) then index0 data else Some JNull))
    (fun error => ret (Some JNull)).



End FetchAPI.

End Api.

(* ===================================================================== *)
(** ** The component [BookingForm] *)
(* ===================================================================== *)

Module BookingForm.
Import JS.

(** The [acf] object of a [WPRoom]; only [price_per_night] is read by the
    code modelled here. *)
Record WPRoomACF : Type := mkACF {
  price_per_night : option Z
}.

(** [interface WPRoom], with the fields the room name and the rate read.
    [title] holds [title.rendered]; the code reads it as [title?.rendered],
    so it may be absent. *)
Record WPRoom : Type := mkRoom {
  id : Z;
  slug : string;
  title : option string;
  featured_title : option string;
  room_rates : option string;
  acf : option WPRoomACF
}.

Section RoomName.

(** [String.prototype.toUpperCase], on the UTF-8 text of a string: the
    upper-casing of the language, which knows every letter and may change the
    length of a text. *)
Variable toUpperCase : string -> string.

(** [w.charAt(0).toUpperCase() + w.slice(1)].  [charAt(0)] and [slice(1)]
    count UTF-16 code units.  A first character of one to three bytes is one
    code unit: it is upper-cased and the rest follows it.  A first character
    of four bytes is a surrogate pair: its first half alone has no upper case
    and the two halves join again, so the word is unchanged. *)
Definition capitalize (w : string) : string :=
  match w with
  | EmptyString => toUpperCase ""
  | String lead _ =>
      if Nat.ltb (utf8_width lead) 4
      then toUpperCase (take_bytes (utf8_width lead) w)
           ++ drop_bytes (utf8_width lead) w
      else w
  end.

(** [room.slug.split('-').map(w => ...).join(' ')] *)
Definition slugTitleCase (s : string) : string :=
  join " " (map capitalize (split "-"%char s)).

(** [const roomName = room.title?.rendered || room.featured_title ||
      (room.slug ? <title-cased slug> : '') || `Room ${room.id}`] *)
Definition roomName (room : WPRoom) : string :=
  or_string
    (or_opt (or_opt (title room) (featured_title room))
            (Some (if truthy_string (slug room)
                   then slugTitleCase (slug room) else "")))
    ("Room " ++ Number_toString (id room)).

End RoomName.

(** [room.acf?.price_per_night] *)
Definition acf_price (room : WPRoom) : option Z :=
  match acf room with
  | Some a => price_per_night a
  | None => None
  end.

(** [const rateValue = room.room_rates ||
      (room.acf?.price_per_night ? `K${room.acf.price_per_night}` : 'K0')] *)
Definition rateValue (room : WPRoom) : string :=
  or_string (room_rates room)
    (match acf_price room with
     | Some p => if truthy_number (Some p)
                 then "K" ++ Number_toString p else "K0"
     | None => "K0"
     end).

(** [rateValue.toString().startsWith('K') ? rateValue : `K${rateValue}`] *)
Definition prefixRate (v : string) : string :=
  if startsWith v "K" then v else "K" ++ v.

(** [const rate = ...]: the rate shown for a room. *)
Definition rate (room : WPRoom) : string := prefixRate (rateValue room).

(** The room with its [room_rates] field replaced. *)
Definition with_room_rates (r : option string) (room : WPRoom) : WPRoom :=
  mkRoom (id room) (slug room) (title room) (featured_title room) r (acf room).

(** *** Form state and the date picks *)

(** The form state ([formData]).  A date is its timestamp in milliseconds;
    [None] is [undefined]. *)
Record FormData : Type := mkForm {
  checkIn : option Z;
  checkOut : option Z;
  roomType : string;
  adults : Z;
  children : Z
}.

(** date-fns [isBefore(a, b)]: [a] is strictly earlier than [b]. *)
Definition isBefore (a b : Z) : bool := a <? b.

Section CheckIn.

(** date-fns [addDays(date, amount)]: the instant with the same local time
    [amount] calendar days later ([setDate(getDate() + amount)]).  How many
    milliseconds that is depends on the time zone: a day with a clock change
    has 23 or 25 hours. *)
Variable addDays : Z -> Z -> Z.

(** The effect on [formData.checkIn]:
    [if (checkIn && checkOut && isBefore(checkOut, checkIn))
       setFormData(prev => ({ ...prev, checkOut: addDays(checkIn, 1) }))] *)
Definition checkOutEffect (f : FormData) : FormData :=
  match checkIn f, checkOut f with
  | Some ci, Some co =>
      if isBefore co ci
      then mkForm (checkIn f) (Some (addDays ci 1)) (roomType f) (adults f) (children f)
      else f
  | _, _ => f
  end.

(** [onSelect] of the check-in calendar: [if (date) setFormData(prev =>
    ({ ...prev, checkIn: date }))], after which the effect on
    [formData.checkIn] runs. *)
Definition pickCheckIn (date : option Z) (f : FormData) : FormData :=
  match date with
  | Some d =>
      checkOutEffect
        (mkForm (Some d) (checkOut f) (roomType f) (adults f) (children f))
  | None => f
  end.

End CheckIn.

(** [onSelect] of the check-out calendar: [formData.checkIn] does not change,
    so the effect does not run. *)
Definition pickCheckOut (date : option Z) (f : FormData) : FormData :=
  match date with
  | Some d => mkForm (checkIn f) (Some d) (roomType f) (adults f) (children f)
  | None => f
  end.

(** [BookingFormErrors]: one optional message per field. *)
Record FormErrors : Type := mkErrors {
  err_checkIn : option string;
  err_checkOut : option string;
  err_roomType : option string;
  err_adults : option string
}.

(** [validateForm]: the errors it records ([newErrors]). *)
Definition validateForm_errors (f : FormData) : FormErrors :=
  mkErrors
    (match checkIn f with
     | None => Some "Check-in date is required"
     | Some _ => None
     end)
    (match checkIn f, checkOut f with
     | Some ci, Some co =>
         if isBefore co ci
         then Some "Check-out date must be after check-in date" else None
     | _, None => Some "Check-out date is required"
     | None, Some _ => None
     end)
    (if orb (negb (truthy_string (roomType f))) (String.eqb (roomType f) "select")
     then Some "Please select a room type" else None)
    (if adults f <? 1 then Some "At least one adult is required" else None).

Definition no_error (o : option string) : bool :=
  match o with
  | None => true
  | Some _ => false
  end.

(** [validateForm]: [Object.keys(newErrors).length === 0]. *)
Definition validateForm (f : FormData) : bool :=
  let e := validateForm_errors f in
  no_error (err_checkIn e) && no_error (err_checkOut e)
  && no_error (err_roomType e) && no_error (err_adults e).

(** *** Room, guests and submit *)

(** [onValueChange] of the room select: [setFormData(prev => ({ ...prev,
    roomType: value }))] *)
Definition changeRoomType (value : string) (f : FormData) : FormData :=
  mkForm (checkIn f) (checkOut f) value (adults f) (children f).

(** [Math.min(Math.max(lo, value), 10)] *)
Definition clamp (lo value : Z) : Z := Z.min (Z.max lo value) 10.

(** [onChange] of the adults input.  [value] is [parseInt(e.target.value)],
    [None] for [NaN]: [if (!isNaN(value)) setFormData(prev => ({ ...prev,
    adults: Math.min(Math.max(1, value), 10) }))] *)
Definition changeAdults (value : option Z) (f : FormData) : FormData :=
  match value with
  | Some v => mkForm (checkIn f) (checkOut f) (roomType f) (clamp 1 v) (children f)
  | None => f
  end.

(** [onChange] of the children input, with the lower bound 0. *)
Definition changeChildren (value : option Z) (f : FormData) : FormData :=
  match value with
  | Some v => mkForm (checkIn f) (checkOut f) (roomType f) (adults f) (clamp 0 v)
  | None => f
  end.

(** What the user does to the form fields. *)
Inductive Edit : Type :=
| SelectCheckIn (date : option Z)
| SelectCheckOut (date : option Z)
| ChangeRoomType (value : string)
| ChangeAdults (value : option Z)
| ChangeChildren (value : option Z).

Section Edits.

(** date-fns [addDays], as above; [setDate(getDate() + n)] of the initial
    state is the same step. *)
Variable addDays : Z -> Z -> Z.

(** The form state of [useState]: the check-in is the clock moved one
    calendar day on, the check-out the clock moved three days on.  The clock
    is read once for each ([new Date()] twice). *)
Definition initialFormData (now1 now2 : Z) : FormData :=
  mkForm (Some (addDays now1 1)) (Some (addDays now2 3)) "select" 2 0.

(** The form data after an edit. *)
Definition edit (e : Edit) (f : FormData) : FormData :=
  match e with
  | SelectCheckIn date => pickCheckIn addDays date f
  | SelectCheckOut date => pickCheckOut date f
  | ChangeRoomType value => changeRoomType value f
  | ChangeAdults value => changeAdults value f
  | ChangeChildren value => changeChildren value f
  end.

(** The form data after a sequence of edits, the first one first. *)
Definition edits (es : list Edit) (f : FormData) : FormData :=
  fold_left (fun f e => edit e f) es f.

End Edits.

(** The [errors] state after an edit: the handler of a date, of the room and
    of the adults sets the message of its field to the empty string; the
    children handler leaves the errors alone; a date handler does nothing on
    an [undefined] date and the adults handler nothing on [NaN]. *)
Definition edit_errors (e : Edit) (errs : FormErrors) : FormErrors :=
  match e with
  | SelectCheckIn (Some _) =>
      mkErrors (Some "") (err_checkOut errs) (err_roomType errs) (err_adults errs)
  | SelectCheckOut (Some _) =>
      mkErrors (err_checkIn errs) (Some "") (err_roomType errs) (err_adults errs)
  | ChangeRoomType _ =>
      mkErrors (err_checkIn errs) (err_checkOut errs) (Some "") (err_adults errs)
  | ChangeAdults (Some _) =>
      mkErrors (err_checkIn errs) (err_checkOut errs) (err_roomType errs) (Some "")
  | _ => errs
  end.

Section Submit.

(** date-fns [format(date, 'yyyy-MM-dd')]. *)
Variable format_yyyy_MM_dd : Z -> string.
(** The [roomTypes] state. *)
Variable roomTypes : list WPRoom.

(** [const roomId = selectedRoom?.id || ''], where [selectedRoom] is
    [roomTypes.find(room => room.slug === formData.roomType)]. *)
Definition roomId (f : FormData) : string :=
  match find (fun room => String.eqb (slug room) (roomType f)) roomTypes with
  | Some selectedRoom =>
      if truthy_number (Some (id selectedRoom))
      then Number_toString (id selectedRoom) else ""
  | None => ""
  end.

(** [handleSubmit]: the URL given to [router.push], [None] when the handler
    returns before it. *)
Definition handleSubmit (f : FormData) : option string :=
  if negb (validateForm f) then None
  else
    match checkIn f, checkOut f with
    | Some ci, Some co =>
        Some ("/booking?checkIn=" ++ format_yyyy_MM_dd ci
              ++ "&checkOut=" ++ format_yyyy_MM_dd co
              ++ "&roomId=" ++ roomId f
              ++ "&adults=" ++ Number_toString (adults f)
              ++ "&children=" ++ Number_toString (children f))
    | _, _ => None
    end.

End Submit.

(** *** The list of rooms *)

(** [a.acf?.price_per_night || 0] *)
Definition price_key (room : WPRoom) : Z :=
  match acf_price room with
  | Some p => p
  | None => 0
  end.

(** [[...roomTypes].sort((a, b) => rateA - rateB)].  The sort of the language
    is stable, so its result is the one ordering by price that keeps rooms of
    equal price in their order; insertion from the right computes it. *)
Fixpoint insert_room (room : WPRoom) (sorted : list WPRoom) : list WPRoom :=
  match sorted with
  | [] => [room]
  | r :: rest =>
      if price_key room <=? price_key r then room :: r :: rest
      else r :: insert_room room rest
  end.

Definition sortedRooms (roomTypes : list WPRoom) : list WPRoom :=
  fold_right insert_room [] roomTypes.

(** The [roomRates] object, keyed by room id. *)
Fixpoint rates_get (k : Z) (m : list (Z * WPRoomACF)) : option WPRoomACF :=
  match m with
  | [] => None
  | (k', a) :: rest => if k =? k' then Some a else rates_get k rest
  end.

Fixpoint rates_set (k : Z) (a : WPRoomACF) (m : list (Z * WPRoomACF))
  : list (Z * WPRoomACF) :=
  match m with
  | [] => [(k, a)]
  | (k', a') :: rest =>
      if k =? k' then (k, a) :: rest else (k', a') :: rates_set k a rest
  end.

(** [ratesData.reduce((acc, room) => { if (room.acf) acc[room.id] = room.acf;
    return acc }, {})], on rows of an id and an optional [acf]. *)
Definition roomRates (ratesData : list (Z * option WPRoomACF)) : list (Z * WPRoomACF) :=
  fold_left
    (fun acc row =>
       match snd row with
       | Some a => rates_set (fst row) a acc
       | None => acc
       end)
    ratesData [].

(** [{ ...room, room_rates: room.room_rates ||
       (roomRates[room.id]?.price_per_night
          ? `K${roomRates[room.id].price_per_night}` : undefined) }] *)
Definition enhanceRoom (rates : list (Z * WPRoomACF)) (room : WPRoom) : WPRoom :=
  with_room_rates
    (or_opt (room_rates room)
            (match rates_get (id room) rates with
             | Some a =>
                 match price_per_night a with
                 | Some p => if truthy_number (Some p)
                             then Some ("K" ++ Number_toString p) else None
                 | None => None
                 end
             | None => None
             end))
    room.

(** The states [roomTypes], [isLoadingRooms] and [roomsError]. *)
Record RoomsState : Type := mkRoomsState {
  roomTypes_of : list WPRoom;
  isLoadingRooms : bool;
  roomsError : option string
}.

Definition initialRoomsState : RoomsState := mkRoomsState [] true None.

Section FetchRooms.

(** [await getRooms()], read as a list of rooms. *)
Variable getRooms : Error + list WPRoom.
(** The network: what [fetch] of a URL gives. *)
Variable fetch : string -> fetch_outcome.
(** [response.json()] of the rates request, read as rows of an id and an
    optional [acf]; an error when the body is not JSON or not such a list. *)
Variable rates_json : string -> Error + list (Z * option WPRoomACF).
Variable env : ProcessEnv.

(** The inner [try] block: the [roomRates] object it leaves. *)
Definition fetchRates : Error + list (Z * WPRoomACF) :=
  catch
    (match NEXT_PUBLIC_WORDPRESS_URL env with
     | Some wordpressUrl =>
         if negb (truthy_string wordpressUrl) then ret []
         else
           ratesResponse <- await (fetch (wordpressUrl ++ "/wp-json/wp/v2/rooms?_fields=id,acf")) ;;
           if ok ratesResponse then
             body <- text ratesResponse ;;
             ratesData <- rates_json body ;;
             ret (roomRates ratesData)
           else ret []
     | None => ret []
     end)
    (fun error => ret []).

(** The effect that loads the rooms, from the state it starts in. *)
Definition fetchRooms (s : RoomsState) : RoomsState :=
  match (rooms <- getRooms ;;
         if Nat.eqb (List.length rooms) 0 then raise "No rooms found"
         else
           rates <- fetchRates ;;
           ret (map (enhanceRoom rates) rooms)) with
  | inr enhancedRooms => mkRoomsState enhancedRooms false None
  | inl error =>
      mkRoomsState (roomTypes_of s) false
                   (Some "Failed to load room information. Please try again later.")
  end.

End FetchRooms.

(** [const shortDescription = description.split('.')[0] || ''] *)
Definition shortDescription (description : string) : string :=
  or_string (hd_error (split "."%char description)) "".

End BookingForm.

(* ===================================================================== *)
(** ** The proxy route handler *)
(* ===================================================================== *)

Module Proxy.
Import JS.

Definition ALLOWED_PATHS : list string :=
  ["posts"; "pages"; "media"; "categories"; "tags"].

Definition allowedParams : list string :=
  ["per_page"; "page"; "search"; "slug"; "include"; "_embed"].

(** [NextResponse.json(body, { status })]; the status is 200 when none is
    given. *)
Record NextResponse : Type := mkNextResponse {
  res_status : Z;
  res_body : json
}.

Definition missing_path : NextResponse :=
  mkNextResponse 400 (JObj [("error", JStr "Missing path parameter")]).

Definition invalid_path : NextResponse :=
  mkNextResponse 400 (JObj [("error", JStr "Invalid path parameter")]).

Definition not_configured : NextResponse :=
  mkNextResponse 500
    (JObj [("error", JStr "Internal server error");
           ("message", JStr "WordPress API URL is not configured");
           ("status", JNum 500)]).

Definition fetch_failed (message : Error) : NextResponse :=
  mkNextResponse 500
    (JObj [("error", JStr "Failed to fetch from WordPress API");
           ("details", JStr message)]).

(** One turn of the loop that fills [params]:
    [for (const [key, value] of searchParams.entries())
       if (key !== 'path' && allowedParams.includes(key)) params[key] = value] *)
Definition forward_entry (params : list (string * string)) (kv : string * string)
  : list (string * string) :=
  if negb (String.eqb (fst kv) "path") && includes allowedParams (fst kv)
  then set_field (fst kv) (snd kv) params
  else params.

(** The [params] object after the loop. *)
Definition forwardedParams (searchParams : SearchParams) : list (string * string) :=
  fold_left forward_entry searchParams [].

(** [const WORDPRESS_API_URL = process.env.NEXT_PUBLIC_WORDPRESS_URL ||
      process.env.NEXT_PUBLIC_WORDPRESS_API_URL] *)
Definition WORDPRESS_API_URL (env : ProcessEnv) : option string :=
  or_opt (NEXT_PUBLIC_WORDPRESS_URL env) (NEXT_PUBLIC_WORDPRESS_API_URL env).

(** [`${WORDPRESS_API_URL}/wp-json/wp/v2/${path}${queryString ? `?${queryString}` : ''}`] *)
Definition upstream_url (base path : string) (params : list (string * string)) : string :=
  let queryString := URLSearchParams_toString params in
  base ++ "/wp-json/wp/v2/" ++ path
  ++ (if truthy_string queryString then "?" ++ queryString else "").

(** [ALLOWED_PATHS.includes(basePath)], where [basePath] is
    [pathSegments[0]] and may be [undefined]. *)
Definition allowed_base (basePath : option string) : bool :=
  match basePath with
  | Some b => includes ALLOWED_PATHS b
  | None => false
  end.

(** [basePath], the first non-empty segment of a path:
    [path.split('/').filter(Boolean)[0]], [None] when there is none. *)
Definition base_segment (path : string) : option string :=
  hd_error (filter_Boolean (split "/"%char path)).

Section Handler.

(** [JSON.parse], behind [response.json()]. *)
Variable JSON_parse : string -> Error + json.
(** The network: what [fetch] of a URL gives. *)
Variable fetch : string -> fetch_outcome.
Variable env : ProcessEnv.

(** The [try] block of [GET] after the request was sent: the body of the
    response to send, or the error thrown. *)
Definition relay (o : fetch_outcome) : Error + json :=
  response <- await o ;;
  (if negb (ok response) then
     errorText <- text response ;;
     raise ("WordPress API request failed with status "
            ++ Number_toString (status response) ++ ": " ++ statusText response)
   else ret tt) ;;
  body <- text response ;;
  JSON_parse body.

(** [export async function GET(request)], on the [searchParams] of the
    request URL: the response, and the URLs fetched upstream on the way. *)
Definition GET (searchParams : SearchParams) : NextResponse * list string :=
  match searchParams_get "path" searchParams with
  | None => (missing_path, [])
  | Some path =>
      if negb (truthy_string path) then (missing_path, [])
      else
        let basePath := base_segment path in
        if negb (truthy basePath) || negb (allowed_base basePath)
        then (invalid_path, [])
        else
          let params := forwardedParams searchParams in
          match WORDPRESS_API_URL env with
          | None => (not_configured, [])
          | Some base =>
              if negb (truthy_string base) then (not_configured, [])
              else
                let url := upstream_url base path params in
                (match relay (fetch url) with
                 | inr data => mkNextResponse 200 data
                 | inl error => fetch_failed error
                 end, [url])
          end
  end.

End Handler.

End Proxy.

(* ===================================================================== *)
(** ** The component [RoomTypesSection] *)
(* ===================================================================== *)

Module RoomTypesSection.
Import JS.

(** [media_details.sizes]: each field holds the [source_url] of that size
    variant when the variant is there. *)
Record Sizes : Type := mkSizes {
  large : option string;
  medium_large : option string;
  medium : option string;
  thumbnail : option string
}.

(** An element of [_embedded['wp:featuredmedia']]; [sizes] holds
    [media_details?.sizes]. *)
Record FeaturedMedia : Type := mkMedia {
  source_url : string;
  sizes : option Sizes
}.

(** [interface Room], with the fields the two functions read.
    [better_featured_image] holds its [source_url]; [featuredmedia] holds
    [_embedded?.['wp:featuredmedia']]; [acf] holds the fields of the
    custom-fields object. *)
Record Room : Type := mkRoom {
  id : Z;
  title : string;
  content : string;
  acf : option (list (string * json));
  better_featured_image : option string;
  featuredmedia : option (list FeaturedMedia)
}.

(** The [gallery] array built for a room, from [room.acf.gallery]:
    the elements of an array, the object itself when it has a [url] key,
    nothing otherwise. *)
Definition normalizeGallery (g : option json) : list json :=
  match g with
  | Some (JArr items) => items
  | Some (JObj fields) => if has_field "url" fields then [JObj fields] else []
  | _ => []
  end.

(** The function mapped over the rooms:
    [if (!room.acf) return room; ... return { ...room, acf: { ...room.acf, gallery } }] *)
Definition normalizeRoom (room : Room) : Room :=
  match acf room with
  | None => room
  | Some a =>
      let gallery := normalizeGallery (get_field "gallery" a) in
      mkRoom (id room) (title room) (content room)
             (Some (set_field "gallery" (JArr gallery) a))
             (better_featured_image room) (featuredmedia room)
  end.

(** [getNormalizedRooms(roomList)]; [None] is a [roomList] that is missing or
    not an array. *)
Definition getNormalizedRooms (roomList : option (list Room)) : list Room :=
  match roomList with
  | None => []
  | Some l => map normalizeRoom l
  end.

(** [room.acf.gallery] of a room, [None] when there is no [acf] or no such
    field. *)
Definition gallery_of (room : Room) : option json :=
  match acf room with
  | Some a => get_field "gallery" a
  | None => None
  end.

Definition defaultImage : string := "/images/rooms/default-room.png".

(** The embedded media of a room,
    [room._embedded?.['wp:featuredmedia']?.[0]]. *)
Definition embedded_media (room : Room) : option FeaturedMedia :=
  match featuredmedia room with
  | Some l => hd_error l
  | None => None
  end.

(** [const getImageUrl = (room: Room): string => ...] *)
Definition getImageUrl (room : Room) : string :=
  if truthy (better_featured_image room)
  then template (better_featured_image room)
  else
    match embedded_media room with
    | None => defaultImage
    | Some featuredMedia =>
        let from_source :=
          if truthy_string (source_url featuredMedia)
          then source_url featuredMedia else defaultImage in
        match sizes featuredMedia with
        | Some s =>
            if truthy (large s) then template (large s)
            else if truthy (medium_large s) then template (medium_large s)
            else if truthy (medium s) then template (medium s)
            else if truthy (thumbnail s) then template (thumbnail s)
            else from_source
        | None => from_source
        end
    end.

(** A size variant of the embedded media, by its projection. *)
Definition embedded_size (pick : Sizes -> option string) (room : Room)
  : option string :=
  match embedded_media room with
  | Some m => match sizes m with
              | Some s => pick s
              | None => None
              end
  | None => None
  end.

(** The candidates of a room in the order of the specification. *)
Definition image_candidates (room : Room) : list (option string) :=
  [ better_featured_image room;
    embedded_size large room;
    embedded_size medium_large room;
    embedded_size medium room;
    embedded_size thumbnail room;
    option_map source_url (embedded_media room) ].

(** *** Loading and the text of the content *)

(** The states [rooms], [loading] and [error] of the section; [rooms] holds
    the value of [api.getRooms()] as it came. *)
Record SectionState : Type := mkSectionState {
  rooms_of : json;
  loading : bool;
  error_of : option string
}.

Definition initialSectionState : SectionState := mkSectionState (JArr []) true None.

(** The effect [fetchRooms]: [try { setRooms(await api.getRooms()) }
    catch { setError(...) } finally { setLoading(false) }] *)
Definition fetchRooms (getRooms : Error + json) (s : SectionState) : SectionState :=
  match getRooms with
  | inr data => mkSectionState data false (error_of s)
  | inl err =>
      mkSectionState (rooms_of s) false
                     (Some "Failed to load rooms. Please try again later.")
  end.

(** There is a [>] in the string. *)
Fixpoint has_gt (s : string) : bool :=
  match s with
  | EmptyString => false
  | String c s' => Ascii.eqb c ">"%char || has_gt s'
  end.

(** [s.replace(/<[^>]*>/g, ' ')].  A match runs from a [<] to the next [>];
    [inside] says that the scan is within a match.  A [<] with no [>] after it
    matches nothing, and neither does anything after it. *)
Fixpoint replace_tags (inside : bool) (s : string) : string :=
  match s with
  | EmptyString => ""
  | String c s' =>
      if inside then
        if Ascii.eqb c ">"%char then replace_tags false s' else replace_tags true s'
      else if Ascii.eqb c "<"%char then
        if has_gt s' then String " "%char (replace_tags true s') else String c s'
      else String c (replace_tags false s')
  end.

End RoomTypesSection.

(* ===================================================================== *)
(** ** Sample data for the examples *)
(* ===================================================================== *)

Module Samples.
Import JS.

(** Upper-casing of ASCII text, a stand-in for [toUpperCase] in the examples:
    the letters a-z go to A-Z and every other byte is unchanged. *)
Definition upper_ascii (c : ascii) : ascii :=
  let n := nat_of_ascii c in
  if andb (Nat.leb 97 n) (Nat.leb n 122) then ascii_of_nat (n - 32) else c.

Fixpoint toUpperCase_ascii (s : string) : string :=
  match s with
  | EmptyString => ""
  | String c s' => String (upper_ascii c) (toUpperCase_ascii s')
  end.

(** [addDays] where no clock change falls in the days added (every day has
    24 hours), a stand-in for the examples. *)
Definition addDays_24h (d n : Z) : Z := d + n * 86400000.

(** Midnight (UTC) of 10, 11, 12 and 13 June 2024. *)
Definition jun10 : Z := 1717977600000.
Definition jun11 : Z := 1718064000000.
Definition jun12 : Z := 1718150400000.
Definition jun13 : Z := 1718236800000.

(** A room of the room-types section with the given custom fields. *)
Definition room_with_acf (a : option (list (string * json))) : RoomTypesSection.Room :=
  RoomTypesSection.mkRoom 7 "Garden Room" "<p>Quiet.</p>" a None None.

(** Neither variable set, development mode. *)
Definition development_unset : ProcessEnv :=
  mkEnv None None (Some "development").

(** Only the legacy variable set, production mode. *)
Definition production_legacy : ProcessEnv :=
  mkEnv None (Some "https://cms.example") (Some "production").

(** A stand-in for [JSON.parse] that knows three bodies. *)
Definition parse_sample (s : string) : Error + json :=
  if String.eqb s "[]" then inr (JArr [])
  else if String.eqb s "{}" then inr (JObj [])
  else if String.eqb s "null" then inr JNull
  else inl "Unexpected token".

(** A request of the proxy with a repeated and a foreign parameter:
    [/api/wp?path=posts&include=1&include=2&callback=x]. *)
Definition repeated_include : SearchParams :=
  [("path", "posts"); ("include", "1"); ("include", "2"); ("callback", "x")].

(** Two digits, and four, with leading zeros. *)
Definition pad2 (n : Z) : string :=
  if n <? 10 then "0" ++ Number_toString n else Number_toString n.

Definition pad4 (n : Z) : string :=
  if n <? 10 then "000" ++ Number_toString n
  else if n <? 100 then "00" ++ Number_toString n
  else if n <? 1000 then "0" ++ Number_toString n
  else Number_toString n.

(** [format(date, 'yyyy-MM-dd')] in the UTC time zone, for the years 1 to
    9999: the civil date of a day number. *)
Definition format_utc (ms : Z) : string :=
  let z := ms / 86400000 + 719468 in
  let era := z / 146097 in
  let doe := z - era * 146097 in
  let yoe := (doe - doe / 1460 + doe / 36524 - doe / 146096) / 365 in
  let doy := doe - (365 * yoe + yoe / 4 - yoe / 100) in
  let mp := (5 * doy + 2) / 153 in
  let d := doy - (153 * mp + 2) / 5 + 1 in
  let m := if mp <? 10 then mp + 3 else mp - 9 in
  let y := yoe + era * 400 + (if m <=? 2 then 1 else 0) in
  pad4 y ++ "-" ++ pad2 m ++ "-" ++ pad2 d.

(** Midnight (UTC) of 1 and 4 July 2024. *)
Definition jul01 : Z := 1719792000000.
Definition jul04 : Z := 1720051200000.

(** Three rooms of the booking form, in the order the API gave them. *)
Definition deluxe : BookingForm.WPRoom :=
  BookingForm.mkRoom 17 "deluxe" (Some "Deluxe") None None
                     (Some (BookingForm.mkACF (Some 450))).
Definition twin : BookingForm.WPRoom :=
  BookingForm.mkRoom 12 "twin" (Some "Twin") None (Some "K300")
                     (Some (BookingForm.mkACF (Some 300))).
Definition dorm : BookingForm.WPRoom :=
  BookingForm.mkRoom 9 "dorm" (Some "Dorm") None None None.

(** A stand-in for [response.json()] of the rates request: the body [{}]
    stands for the rows of rooms 9 and 17. *)
Definition rates_sample (s : string) : Error + list (Z * option BookingForm.WPRoomACF) :=
  if String.eqb s "{}"
  then inr [(9, Some (BookingForm.mkACF (Some 120))); (17, None)]
  else inl "Unexpected token".

(** Only the primary variable set. *)
Definition production_primary : ProcessEnv :=
  mkEnv (Some "https://cms.example") None (Some "production").

(** A stand-in for the [URL] class: a string that starts with [http] is a
    URL without a query, any other string is refused. *)
Definition URL_new_sample (s : string) : Error + (string * SearchParams) :=
  if String.prefix "http" s then inr (s, []) else inl "Invalid URL".

Definition URL_searchParams_sample (url : string * SearchParams) : SearchParams :=
  snd url.

Definition URL_toString_sample (url : string * SearchParams) (sp : SearchParams) : string :=
  fst url ++ (if truthy_string (URLSearchParams_toString sp)
              then "?" ++ URLSearchParams_toString sp else "").

(** An upstream that answers every request with status 404. *)
Definition fetch_404 (url : string) : fetch_outcome :=
  Resolved (mkResponse false 404 "Not Found" (inr "{}")).

(** A stand-in for [JSON.parse] that knows one media object. *)
Definition parse_media (s : string) : Error + json :=
  if String.eqb s "{}" then inr (JObj [("id", JNum 12); ("source_url", JStr "/uploads/a.jpg")])
  else inl "Unexpected token".

(** An upstream that answers every request with that media object. *)
Definition fetch_media (url : string) : fetch_outcome :=
  Resolved (mkResponse true 200 "OK" (inr "{}")).

(** An upstream that answers every request with an empty list. *)
Definition fetch_sample (url : string) : fetch_outcome :=
  Resolved (mkResponse true 200 "OK" (inr "[]")).

End Samples.

(* ===================================================================== *)
(** * Properties *)
(* ===================================================================== *)

Import JS Samples.

(** ** Strings *)

Lemma truthy_string_true (s : string) : truthy_string s = true <-> s <> "".
Proof.
  unfold truthy_string. destruct (String.eqb_spec s ""); simpl; split; congruence.
Qed.

Lemma truthy_string_false (s : string) : truthy_string s = false <-> s = "".
Proof.
  unfold truthy_string. destruct (String.eqb_spec s ""); simpl; split; congruence.
Qed.

Lemma append_nonempty_l (a b : string) : a <> "" -> (a ++ b)%string <> "".
Proof. destruct a; simpl; congruence. Qed.

Lemma string_app_assoc (a b c : string) : ((a ++ b) ++ c = a ++ (b ++ c))%string.
Proof. induction a as [|x a IH]; simpl; [reflexivity | rewrite IH; reflexivity]. Qed.

Lemma split_not_nil (sep : ascii) (s : string) : split sep s <> [].
Proof.
  induction s as [|c s IH]; simpl; [discriminate|].
  destruct (Ascii.eqb c sep); [discriminate|].
  destruct (split sep s); discriminate.
Qed.

Lemma startsWith_nonempty (s p : string) :
  p <> "" -> startsWith s p = true -> s <> "".
Proof.
  unfold startsWith. destruct p; [congruence|]. destruct s; simpl; congruence.
Qed.

Lemma startsWith_append (p s : string) : startsWith (p ++ s) p = true.
Proof.
  unfold startsWith. induction p as [|c p IH]; simpl.
  - destruct s; reflexivity.
  - destruct (ascii_dec c c); [exact IH | congruence].
Qed.

(** ** Booking form: room name *)

Lemma append_nonempty_r (a b : string) : b <> "" -> (a ++ b)%string <> "".
Proof. destruct a; simpl; [auto | discriminate]. Qed.

Lemma concat_head_nonempty (sep w : string) (ws : list string) :
  w <> "" -> String.concat sep (w :: ws) <> "".
Proof.
  intros Hw. destruct ws as [|x xs]; simpl; [exact Hw|].
  now apply append_nonempty_l.
Qed.

Lemma or_string_or_opt (a b : option string) (d : string) :
  or_string (or_opt a b) d = or_string a (or_string b d).
Proof.
  unfold or_opt. destruct a as [u|]; simpl; [|reflexivity].
  destruct (truthy_string u) eqn:Hu; simpl; rewrite ?Hu; reflexivity.
Qed.

Lemma first_available_cons (o : option string) (rest : list (option string))
      (d : string) :
  Fallback.first_available (o :: rest) d
  = or_string o (Fallback.first_available rest d).
Proof. destruct o; reflexivity. Qed.

Lemma first_available_nonempty (cs : list (option string)) (d : string) :
  d <> "" -> Fallback.first_available cs d <> "".
Proof.
  intros Hd. induction cs as [|[u|] cs IH]; simpl; auto.
  destruct (truthy_string u) eqn:Hu; auto.
  now apply truthy_string_true.
Qed.

Lemma take_bytes_nonempty (n : nat) (c : ascii) (s : string) :
  (1 <= n)%nat -> take_bytes n (String c s) <> "".
Proof. destruct n; simpl; [lia | discriminate]. Qed.

Lemma utf8_width_positive (c : ascii) : (1 <= utf8_width c)%nat.
Proof.
  unfold utf8_width.
  destruct (Nat.ltb (nat_of_ascii c) 192); [lia|].
  destruct (Nat.ltb (nat_of_ascii c) 224); [lia|].
  destruct (Nat.ltb (nat_of_ascii c) 240); lia.
Qed.

Section RoomName.
Import BookingForm.

Variable toUpperCase : string -> string.

(** What the proofs need of the upper-casing of the language: the empty text
    stays empty, and no other text becomes empty. *)
Hypothesis toUpperCase_empty : toUpperCase "" = "".
Hypothesis toUpperCase_nonempty : forall s, s <> "" -> toUpperCase s <> "".

Lemma capitalize_nonempty (w : string) : w <> "" -> capitalize toUpperCase w <> "".
Proof.
  destruct w as [|c w]; [congruence|]. intros _. unfold capitalize.
  destruct (Nat.ltb (utf8_width c) 4); [|discriminate].
  apply append_nonempty_l, toUpperCase_nonempty, take_bytes_nonempty,
    utf8_width_positive.
Qed.

(** A slug that is not empty never title-cases to the empty string: either
    it has a hyphen, and the result has a space, or it is one segment, whose
    first character is kept (upper-cased). *)
Lemma slugTitleCase_nonempty (s : string) :
  s <> "" -> slugTitleCase toUpperCase s <> "".
Proof.
  destruct s as [|c s]; [congruence|]. intros _.
  unfold slugTitleCase, join. simpl split.
  destruct (Ascii.eqb c "-"%char).
  - pose proof (split_not_nil "-"%char s) as Hne.
    destruct (split "-"%char s) as [|w ws]; [congruence|].
    change (String.concat " " (map (capitalize toUpperCase) ("" :: w :: ws)))
      with (capitalize toUpperCase ""
            ++ " " ++ String.concat " " (map (capitalize toUpperCase) (w :: ws)))%string.
    apply append_nonempty_r. discriminate.
  - destruct (split "-"%char s) as [|w ws].
    + apply concat_head_nonempty, capitalize_nonempty. discriminate.
    + change (map (capitalize toUpperCase) (String c w :: ws))
        with (capitalize toUpperCase (String c w) :: map (capitalize toUpperCase) ws).
      apply concat_head_nonempty, capitalize_nonempty. discriminate.
Qed.

Lemma slugTitleCase_empty : slugTitleCase toUpperCase "" = "".
Proof. unfold slugTitleCase. simpl. exact toUpperCase_empty. Qed.

Lemma roomName_chain (room : WPRoom) :
  roomName toUpperCase room =
  Fallback.first_available
    [title room; featured_title room; Some (slugTitleCase toUpperCase (slug room))]
    ("Room " ++ Number_toString (id room)).
Proof.
  unfold roomName. rewrite !or_string_or_opt, !first_available_cons.
  do 2 f_equal.
  destruct (truthy_string (slug room)) eqn:Hs; [reflexivity|].
  apply truthy_string_false in Hs. rewrite Hs, slugTitleCase_empty. reflexivity.
Qed.

(** C8.  The room name follows the fallback order: the title, then the
    display-name field [featured_title], then the slug title-cased (split on
    the hyphen, each segment capitalised, joined with spaces), then the label
    "Room {id}"; the first one that is not empty wins.  A room that lacks all
    three sources is named "Room {id}", and a room whose slug is not empty
    never has the empty name.  This holds for every room and every slug, given
    of the upper-casing of the language only that it keeps the empty text
    empty and makes no other text empty. *)
Theorem roomName_fallback_order (room : WPRoom) :
  roomName toUpperCase room =
    Fallback.first_available
      [title room; featured_title room; Some (slugTitleCase toUpperCase (slug room))]
      ("Room " ++ Number_toString (id room))
  /\ (truthy (title room) = false -> truthy (featured_title room) = false ->
      slug room = "" ->
      roomName toUpperCase room = "Room " ++ Number_toString (id room))
  /\ (truthy (title room) = false -> truthy (featured_title room) = false ->
      slug room <> "" ->
      roomName toUpperCase room = slugTitleCase toUpperCase (slug room))
  /\ (slug room <> "" -> roomName toUpperCase room <> "").
Proof.
  split; [apply roomName_chain|].
  rewrite roomName_chain. simpl.
  repeat split.
  - intros Ht Hf Hs. rewrite Hs, slugTitleCase_empty.
    destruct (title room) as [t|], (featured_title room) as [ft|];
      simpl in *; rewrite ?Ht, ?Hf; reflexivity.
  - intros Ht Hf Hs.
    pose proof (slugTitleCase_nonempty _ Hs) as Hne.
    apply truthy_string_true in Hne.
    destruct (title room) as [t|], (featured_title room) as [ft|];
      simpl in *; rewrite ?Ht, ?Hf, Hne; reflexivity.
  - intros Hs.
    change (Fallback.first_available
              [title room; featured_title room;
               Some (slugTitleCase toUpperCase (slug room))]
              ("Room " ++ Number_toString (id room)) <> "").
    apply first_available_nonempty. simpl. discriminate.
Qed.

End RoomName.

Lemma toUpperCase_ascii_nonempty (s : string) : s <> "" -> toUpperCase_ascii s <> "".
Proof. destruct s; simpl; [congruence | discriminate]. Qed.

Example slugTitleCase_deluxe :
  BookingForm.slugTitleCase toUpperCase_ascii "deluxe-ocean-view" = "Deluxe Ocean View".
Proof. reflexivity. Qed.

(** With an upper-casing that knows the letter, a slug whose segments begin
    with a letter of two bytes is capitalised on that letter. *)
Example slugTitleCase_two_byte_letter :
  BookingForm.slugTitleCase
    (fun s => if String.eqb s "é" then "É" else toUpperCase_ascii s)
    "école-été"
  = "École Été".
Proof. reflexivity. Qed.

Lemma roomName_fallback_order_witness :
  BookingForm.roomName toUpperCase_ascii
    (BookingForm.mkRoom 17 "" None (Some "") None None) = "Room 17"
  /\ BookingForm.roomName toUpperCase_ascii
       (BookingForm.mkRoom 17 "garden-view" (Some "") None None None) = "Garden View"
  /\ BookingForm.roomName toUpperCase_ascii
       (BookingForm.mkRoom 17 "garden-view" None None None None) <> "".
Proof.
  pose proof (roomName_fallback_order toUpperCase_ascii eq_refl toUpperCase_ascii_nonempty
                (BookingForm.mkRoom 17 "" None (Some "") None None))
    as (_ & H1 & _ & _).
  pose proof (roomName_fallback_order toUpperCase_ascii eq_refl toUpperCase_ascii_nonempty
                (BookingForm.mkRoom 17 "garden-view" (Some "") None None None))
    as (_ & _ & H2 & _).
  pose proof (roomName_fallback_order toUpperCase_ascii eq_refl toUpperCase_ascii_nonempty
                (BookingForm.mkRoom 17 "garden-view" None None None None))
    as (_ & _ & _ & H3).
  split; [|split].
  - apply H1; reflexivity.
  - apply H2; [reflexivity | reflexivity | simpl; discriminate].
  - apply H3. simpl. discriminate.
Defined.

(** ** Booking form: rate *)

Section Rate.
Import BookingForm.

Example rate_from_string : rate (mkRoom 3 "twin" None None (Some "120") None) = "K120".
Proof. reflexivity. Qed.

Example rate_from_acf :
  rate (mkRoom 3 "twin" None None None (Some (mkACF (Some 250)))) = "K250".
Proof. reflexivity. Qed.

Example rate_zero_sentinel : rate (mkRoom 3 "twin" None None None None) = "K0".
Proof. reflexivity. Qed.

Lemma prefixRate_prefixed (v : string) : startsWith (prefixRate v) "K" = true.
Proof.
  unfold prefixRate. destruct (startsWith v "K") eqn:Hv; [exact Hv|].
  apply startsWith_append.
Qed.

Lemma prefixRate_fixed (v : string) : startsWith v "K" = true -> prefixRate v = v.
Proof. unfold prefixRate. intros ->. reflexivity. Qed.

Lemma prefixRate_idempotent (v : string) : prefixRate (prefixRate v) = prefixRate v.
Proof. apply prefixRate_fixed, prefixRate_prefixed. Qed.

(** A string field with the currency prefix is what [rateValue] picks. *)
Lemma rateValue_prefixed (room : WPRoom) (v : string) :
  startsWith v "K" = true -> rateValue (with_room_rates (Some v) room) = v.
Proof.
  intros Hv. unfold rateValue, or_string. simpl.
  assert (Ht : truthy_string v = true).
  { apply truthy_string_true. eapply startsWith_nonempty; [|exact Hv]. discriminate. }
  rewrite Ht. reflexivity.
Qed.

(** C9.  Rate resolution never double-prefixes.  A rate string that already
    starts with the currency prefix K is the resolved rate, unmodified; and
    resolution is idempotent: the rate resolved for a room, stored back as the
    room's rate string (of this or any other room), resolves to itself. *)
Theorem rate_no_double_prefix (room other : WPRoom) (s : string) :
  rate (with_room_rates (Some ("K" ++ s)) room) = "K" ++ s
  /\ rate (with_room_rates (Some (rate room)) other) = rate room
  /\ prefixRate (prefixRate s) = prefixRate s.
Proof.
  assert (Hfix : forall r v, startsWith v "K" = true ->
                             rate (with_room_rates (Some v) r) = v).
  { intros r v Hv. unfold rate. rewrite rateValue_prefixed by exact Hv.
    now apply prefixRate_fixed. }
  split; [|split].
  - apply Hfix, startsWith_append.
  - apply Hfix. unfold rate. apply prefixRate_prefixed.
  - apply prefixRate_idempotent.
Qed.

End Rate.

(** ** Booking form: date picks *)

Section DatePick.
Import BookingForm.

(** date-fns [addDays], whatever the time zone makes of it. *)
Variable addDays : Z -> Z -> Z.

Lemma pickCheckIn_no_checkOut (f : FormData) (d : Z) :
  checkOut f = None -> checkOut (pickCheckIn addDays (Some d) f) = None.
Proof. intros H. unfold pickCheckIn, checkOutEffect. simpl. rewrite H. reflexivity. Qed.

(** C1, amended.  A check-in pick sets the check-in date; a check-out date
    strictly before the new check-in is moved to check-in plus one day (as
    [addDays] gives it in the time zone of the browser), and any other
    check-out date (equal to the check-in or later) is kept.  After the pick
    the check-out is never before the check-in, given that a day added to the
    check-in does not lead back in time. *)
Theorem pickCheckIn_checkOut (f : FormData) (d co : Z) :
  checkOut f = Some co ->
  d <= addDays d 1 ->
  checkIn (pickCheckIn addDays (Some d) f) = Some d
  /\ checkOut (pickCheckIn addDays (Some d) f)
     = Some (if co <? d then addDays d 1 else co)
  /\ exists co', checkOut (pickCheckIn addDays (Some d) f) = Some co' /\ d <= co'.
Proof.
  intros Hco Hday. unfold pickCheckIn, checkOutEffect, isBefore. simpl. rewrite Hco.
  destruct (Z.ltb_spec co d) as [Hlt|Hge]; simpl.
  - split; [reflexivity|]. split; [reflexivity|].
    eexists; split; [reflexivity | exact Hday].
  - split; [reflexivity|]. split; [reflexivity|].
    eexists; split; [reflexivity | exact Hge].
Qed.

End DatePick.

(** The example of the specification: check-in 10 June with check-out
    11 June; picking check-in 12 June moves check-out to 13 June (where no
    clock change falls between the 12th and the 13th). *)
Example pickCheckIn_past_checkOut :
  BookingForm.pickCheckIn addDays_24h (Some jun12)
    (BookingForm.mkForm (Some jun10) (Some jun11) "select" 2 0)
  = BookingForm.mkForm (Some jun12) (Some jun13) "select" 2 0.
Proof. reflexivity. Qed.

(** Counterexample to C1 as worded.  With check-out on 12 June, picking
    check-in 12 June leaves check-out equal to check-in: it is not strictly
    after check-in, it is not moved to the next day, and the form validates.
    [addDays] is not called on the way. *)
Lemma pickCheckIn_same_day_not_corrected :
  let f := BookingForm.pickCheckIn addDays_24h (Some jun12)
             (BookingForm.mkForm (Some jun10) (Some jun12) "deluxe" 2 0) in
  BookingForm.checkIn f = Some jun12
  /\ BookingForm.checkOut f = Some jun12
  /\ BookingForm.checkOut f <> Some jun13
  /\ BookingForm.validateForm f = true.
Proof. repeat split. discriminate. Qed.

Lemma pickCheckIn_checkOut_witness :
  BookingForm.checkOut
    (BookingForm.pickCheckIn addDays_24h (Some jun12)
       (BookingForm.mkForm (Some jun10) (Some jun11) "select" 2 0))
  = Some jun13.
Proof.
  refine (proj1 (proj2 (pickCheckIn_checkOut addDays_24h
                          (BookingForm.mkForm (Some jun10) (Some jun11) "select" 2 0)
                          jun12 jun11 eq_refl _))).
  unfold addDays_24h, jun12. lia.
Defined.

(** ** Objects as maps *)

Lemma get_set_field_same {V : Type} (k : string) (v : V) (o : list (string * V)) :
  get_field k (set_field k v o) = Some v.
Proof.
  induction o as [|[k' v'] o IH]; simpl.
  - rewrite String.eqb_refl. reflexivity.
  - destruct (String.eqb k k') eqn:E; simpl; rewrite ?String.eqb_refl, ?E; auto.
Qed.

Lemma get_set_field_other {V : Type} (k k' : string) (v : V) (o : list (string * V)) :
  k <> k' -> get_field k (set_field k' v o) = get_field k o.
Proof.
  intros Hne. induction o as [|[k1 v1] o IH]; simpl.
  - destruct (String.eqb_spec k k'); congruence.
  - destruct (String.eqb_spec k' k1) as [->|Hk]; simpl.
    + destruct (String.eqb_spec k k1); congruence.
    + destruct (String.eqb_spec k k1); auto.
Qed.

Lemma in_set_field {V : Type} (k k' : string) (v v' : V) (o : list (string * V)) :
  In (k, v) (set_field k' v' o) -> (k, v) = (k', v') \/ In (k, v) o.
Proof.
  induction o as [|[k1 v1] o IH]; simpl.
  - intros [H|[]]. left. congruence.
  - destruct (String.eqb k' k1); simpl.
    + intros [H|H]; [left; congruence | right; right; exact H].
    + intros [H|H]; [right; left; exact H|].
      destruct (IH H); [left|right; right]; assumption.
Qed.

Lemma keys_set_field {V : Type} (k k' : string) (v' : V) (o : list (string * V)) :
  In k (map fst (set_field k' v' o)) <-> k = k' \/ In k (map fst o).
Proof.
  induction o as [|[k1 v1] o IH]; simpl.
  - intuition congruence.
  - destruct (String.eqb_spec k' k1) as [->|Hk]; simpl.
    + intuition congruence.
    + rewrite IH. intuition congruence.
Qed.

Lemma NoDup_set_field {V : Type} (k : string) (v : V) (o : list (string * V)) :
  NoDup (map fst o) -> NoDup (map fst (set_field k v o)).
Proof.
  induction o as [|[k1 v1] o IH]; simpl; intros Hnd.
  - constructor; [intros []|constructor].
  - inversion Hnd as [|? ? Hnotin Hnd']; subst.
    destruct (String.eqb_spec k k1) as [->|Hk]; simpl.
    + constructor; assumption.
    + constructor; [|auto].
      rewrite keys_set_field. intros [E|Hin]; [congruence | contradiction].
Qed.

(** ** Room types: gallery normalisation *)

Section Gallery.
Import RoomTypesSection.

Example normalize_list_gallery :
  gallery_of (normalizeRoom (room_with_acf
    (Some [("gallery", JArr [JObj [("url", JStr "/a.jpg")]; JObj [("url", JStr "/b.jpg")]])])))
  = Some (JArr [JObj [("url", JStr "/a.jpg")]; JObj [("url", JStr "/b.jpg")]]).
Proof. reflexivity. Qed.

Example normalize_single_gallery :
  gallery_of (normalizeRoom (room_with_acf
    (Some [("size", JStr "30m2"); ("gallery", JObj [("url", JStr "/a.jpg")])])))
  = Some (JArr [JObj [("url", JStr "/a.jpg")]]).
Proof. reflexivity. Qed.

Example normalize_absent_gallery :
  gallery_of (normalizeRoom (room_with_acf (Some [("size", JStr "30m2")])))
  = Some (JArr []).
Proof. reflexivity. Qed.

(** Counterexample to C2 as worded.  A single object that has no [url] key
    is not wrapped: the normalised gallery is the empty list, not the list
    of that object.  And a room without custom fields gets no gallery. *)
Lemma gallery_object_without_url_dropped :
  let g := JObj [("id", JNum 41); ("src", JStr "/a.jpg")] in
  normalizeGallery (Some g) = []
  /\ normalizeGallery (Some g) <> [g]
  /\ gallery_of (normalizeRoom (room_with_acf (Some [("gallery", g)]))) = Some (JArr [])
  /\ gallery_of (normalizeRoom (room_with_acf None)) = None.
Proof. repeat split. discriminate. Qed.

Lemma normalizeRoom_without_acf (room : Room) :
  acf room = None -> normalizeRoom room = room.
Proof. unfold normalizeRoom. intros ->. reflexivity. Qed.

(** C2, amended.  A room without custom fields is returned unchanged, and
    so has no gallery.  For every room that has custom fields, the normalised
    gallery is a list, whatever the shape of the source: the empty list for an
    absent gallery, the list itself for a list, the one-element list of the
    object for a single object that has a [url] key, and the empty list for an
    object without that key and for every other value. *)
Theorem gallery_normalized (room : Room) :
  (acf room = None ->
   normalizeRoom room = room /\ gallery_of (normalizeRoom room) = None)
  /\ (forall a, acf room = Some a ->
        gallery_of (normalizeRoom room)
        = Some (JArr (normalizeGallery (get_field "gallery" a))))
  /\ normalizeGallery None = []
  /\ (forall items, normalizeGallery (Some (JArr items)) = items)
  /\ (forall fields, normalizeGallery (Some (JObj fields))
                     = if has_field "url" fields then [JObj fields] else [])
  /\ normalizeGallery (Some JNull) = []
  /\ (forall b, normalizeGallery (Some (JBool b)) = [])
  /\ (forall n, normalizeGallery (Some (JNum n)) = [])
  /\ (forall s, normalizeGallery (Some (JStr s)) = []).
Proof.
  split; [|split; [|repeat split]].
  - intros Ha. rewrite (normalizeRoom_without_acf room Ha).
    split; [reflexivity|]. unfold gallery_of. rewrite Ha. reflexivity.
  - intros a Ha. unfold gallery_of, normalizeRoom. rewrite Ha. simpl.
    apply get_set_field_same.
Qed.

Lemma gallery_normalized_witness :
  gallery_of (normalizeRoom (room_with_acf (Some [("gallery", JObj [("url", JStr "/a.jpg")])])))
  = Some (JArr [JObj [("url", JStr "/a.jpg")]])
  /\ normalizeRoom (room_with_acf None) = room_with_acf None.
Proof.
  split.
  - exact (proj1 (proj2 (gallery_normalized
                    (room_with_acf (Some [("gallery", JObj [("url", JStr "/a.jpg")])]))))
                 [("gallery", JObj [("url", JStr "/a.jpg")])] eq_refl).
  - exact (proj1 (proj1 (gallery_normalized (room_with_acf None)) eq_refl)).
Defined.

Lemma getNormalizedRooms_length (l : list Room) :
  length (getNormalizedRooms (Some l)) = length l.
Proof. simpl. apply length_map. Qed.

End Gallery.

(** ** Room types: image URL *)

Section ImageUrl.
Import RoomTypesSection.

Lemma or_string_template (o : option string) (d : string) :
  or_string o d = if truthy o then template o else d.
Proof. destruct o; reflexivity. Qed.

Lemma getImageUrl_chain (room : Room) :
  getImageUrl room = Fallback.first_available (image_candidates room) defaultImage.
Proof.
  unfold getImageUrl, image_candidates, embedded_size.
  rewrite !first_available_cons, !or_string_template.
  destruct (truthy (better_featured_image room)); [reflexivity|].
  destruct (embedded_media room) as [m|]; [|reflexivity].
  destruct (sizes m) as [s|]; simpl.
  - destruct (truthy (large s)); [reflexivity|].
    destruct (truthy (medium_large s)); [reflexivity|].
    destruct (truthy (medium s)); [reflexivity|].
    destruct (truthy (thumbnail s)); reflexivity.
  - reflexivity.
Qed.

Lemma first_available_none (cs : list (option string)) (d : string) :
  (forall c, In c cs -> truthy c = false) -> Fallback.first_available cs d = d.
Proof.
  induction cs as [|c cs IH]; intros H; [reflexivity|].
  rewrite first_available_cons, or_string_template, (H c (or_introl eq_refl)).
  apply IH. intros c' Hc'. apply H. right. exact Hc'.
Qed.

(** C7.  The image URL of a room is the first available of: the
    better-featured-image, the embedded media's size variants large,
    medium-large, medium and thumbnail, the embedded media's own source URL,
    and at last the local default path.  The function is total and its
    result is never empty; a room with no image anywhere gets the default
    path. *)
Theorem getImageUrl_preference_order (room : Room) :
  getImageUrl room = Fallback.first_available (image_candidates room) defaultImage
  /\ getImageUrl room <> ""
  /\ ((forall c, In c (image_candidates room) -> truthy c = false) ->
      getImageUrl room = defaultImage).
Proof.
  split; [apply getImageUrl_chain|]. rewrite getImageUrl_chain. split.
  - apply first_available_nonempty. discriminate.
  - apply first_available_none.
Qed.

Lemma getImageUrl_preference_order_witness :
  getImageUrl (mkRoom 7 "Garden Room" "" None None (Some [])) = defaultImage.
Proof.
  apply (proj2 (proj2 (getImageUrl_preference_order
                         (mkRoom 7 "Garden Room" "" None None (Some []))))).
  intros c Hc. simpl in Hc.
  repeat (destruct Hc as [<-|Hc]; [reflexivity|]). destruct Hc.
Defined.

Example getImageUrl_medium :
  getImageUrl (mkRoom 7 "Garden Room" "" None (Some "")
                 (Some [mkMedia "/full.jpg"
                          (Some (mkSizes None (Some "") (Some "/m.jpg") (Some "/t.jpg")))]))
  = "/m.jpg".
Proof. reflexivity. Qed.

End ImageUrl.

(** ** Config resolution *)

Section Config.

Lemma Wordpress_url_resolved (env : ProcessEnv) :
  Wordpress.WORDPRESS_API_URL env = Fallback.resolveBaseURL env.
Proof.
  unfold Wordpress.WORDPRESS_API_URL, Fallback.resolveBaseURL.
  rewrite or_string_or_opt, !first_available_cons. reflexivity.
Qed.

Lemma Api_url_resolved (env : ProcessEnv) :
  or_string (Api.WORDPRESS_API_URL env) "" = Fallback.resolveBaseURL env.
Proof.
  unfold Api.WORDPRESS_API_URL, Fallback.resolveBaseURL.
  rewrite or_string_or_opt, !first_available_cons. reflexivity.
Qed.

Lemma truthy_or_string (o : option string) :
  truthy o = truthy_string (or_string o "").
Proof.
  destruct o as [s|]; simpl; [|reflexivity].
  destruct (truthy_string s) eqn:E; [symmetry; exact E | reflexivity].
Qed.

(** Counterexample to C3 as worded.  With neither variable set and the
    execution mode "development", loading the api module throws. *)
Lemma Api_load_throws_in_development :
  snd (Api.load development_unset)
  = inl "WordPress API URL is not defined. Please set NEXT_PUBLIC_WORDPRESS_URL or NEXT_PUBLIC_WORDPRESS_API_URL in your environment variables.".
Proof. reflexivity. Qed.

(** C3, amended.  Both modules resolve the base URL from the primary
    variable, then the legacy variable, then "unset".  The wordpress module
    raises no error in any environment and yields the resolved URL (the empty
    string when unset).  The api module raises an error exactly when the URL
    is unset and the execution mode is not production; otherwise it yields
    the resolved URL without error. *)
Theorem config_resolution (env : ProcessEnv) :
  snd (Wordpress.load env) = inr (Fallback.resolveBaseURL env)
  /\ ((exists e, snd (Api.load env) = inl e)
      <-> Fallback.resolveBaseURL env = "" /\ not_production env = true)
  /\ (forall u, snd (Api.load env) = inr u -> or_string u "" = Fallback.resolveBaseURL env).
Proof.
  split; [|split].
  - unfold Wordpress.load. simpl. rewrite Wordpress_url_resolved. reflexivity.
  - unfold Api.load. rewrite truthy_or_string, Api_url_resolved.
    destruct (truthy_string (Fallback.resolveBaseURL env)) eqn:Hu; simpl.
    + apply truthy_string_true in Hu.
      split; [intros [e He]; discriminate | intros [H _]; contradiction].
    + apply truthy_string_false in Hu.
      destruct (not_production env); simpl.
      * split; [intros _; split; [exact Hu | reflexivity] | intros _; eexists; reflexivity].
      * split; [intros [e He]; discriminate | intros [_ H]; discriminate].
  - intros u Hu. rewrite <- Api_url_resolved.
    unfold Api.load in Hu.
    destruct (truthy (Api.WORDPRESS_API_URL env)); simpl in Hu;
      [|destruct (not_production env); simpl in Hu]; congruence.
Qed.

Lemma config_resolution_witness :
  (exists e, snd (Api.load development_unset) = inl e)
  /\ or_string (Some "https://cms.example") "" = Fallback.resolveBaseURL production_legacy.
Proof.
  split.
  - apply (proj1 (proj2 (config_resolution development_unset))).
    split; reflexivity.
  - apply (proj2 (proj2 (config_resolution production_legacy))). reflexivity.
Defined.

End Config.

(** ** Rooms accessor *)

Section Rooms.

Variable JSON_parse : string -> Error + json.
Variable fetch : string -> fetch_outcome.
Variable env : ProcessEnv.

(** [getRooms] never rejects: every outcome of the request gives a value. *)
Lemma getRooms_never_rejects : exists v, Api.getRooms JSON_parse fetch env = inr v.
Proof.
  unfold Api.getRooms. simpl.
  match goal with |- context [match ?x with inl _ => _ | inr _ => _ end] =>
    destruct x end; eexists; reflexivity.
Qed.

(** A body that parses to something other than [null] is returned as it is. *)
Lemma getRooms_success (r : Response) (b : string) (v : json) :
  fetch (Api.rooms_url env) = Resolved r -> ok r = true ->
  text r = inr b -> b <> "" -> JSON_parse b = inr v -> v <> JNull ->
  Api.getRooms JSON_parse fetch env = inr v.
Proof.
  intros Hf Hok Ht Hb Hp Hv. unfold Api.getRooms. rewrite Hf. simpl.
  rewrite Hok, Ht. simpl.
  apply truthy_string_true in Hb. rewrite Hb. simpl. rewrite Hp.
  destruct v; simpl; congruence.
Qed.

End Rooms.

(** C6.  The rooms accessor degrades to the empty list.  In every failure
    mode of the request (the network fails, the response is not 2xx, the body
    cannot be read or is not parseable) and for an empty response body,
    [getRooms] resolves to the empty list and does not propagate an error. *)
Theorem getRooms_degrades_to_empty
        (JSON_parse : string -> Error + json) (fetch : string -> fetch_outcome)
        (env : ProcessEnv) :
  Api.rooms_failure JSON_parse (fetch (Api.rooms_url env)) ->
  Api.getRooms JSON_parse fetch env = inr (JArr []).
Proof.
  intros Hfail. unfold Api.getRooms.
  inversion Hfail as [e He | r Hok He | r e Ht He | r Ht He | r b e Ht Hp He];
    simpl.
  - reflexivity.
  - rewrite Hok. simpl. destruct (text r); reflexivity.
  - rewrite Ht. destruct (ok r); reflexivity.
  - rewrite Ht. destruct (ok r); reflexivity.
  - rewrite Ht. destruct (ok r); simpl; [|reflexivity].
    destruct (truthy_string b); [|reflexivity].
    simpl. rewrite Hp. reflexivity.
Qed.

Lemma getRooms_degrades_to_empty_witness :
  Api.getRooms parse_sample (fun _ => Rejected "fetch failed") production_legacy = inr (JArr [])
  /\ Api.getRooms parse_sample (fun _ => Resolved (mkResponse false 404 "Not Found" (inr "{}")))
       production_legacy = inr (JArr [])
  /\ Api.getRooms parse_sample (fun _ => Resolved (mkResponse true 200 "OK" (inr "<html>")))
       production_legacy = inr (JArr [])
  /\ Api.getRooms parse_sample (fun _ => Resolved (mkResponse true 200 "OK" (inr "")))
       production_legacy = inr (JArr []).
Proof.
  split; [|split; [|split]]; apply getRooms_degrades_to_empty.
  - apply Api.network_error.
  - apply Api.non_2xx. reflexivity.
  - eapply Api.malformed_body; reflexivity.
  - apply Api.empty_body. reflexivity.
Defined.

(** ** Proxy: the forwarded parameters *)

Section ProxyParams.
Import Proxy.

Lemma includes_In (l : list string) (x : string) : includes l x = true <-> In x l.
Proof.
  unfold includes. rewrite existsb_exists. split.
  - intros (y & Hy & E). apply String.eqb_eq in E. congruence.
  - intros H. exists x. split; [exact H | apply String.eqb_refl].
Qed.

Lemma get_field_app {V : Type} (k : string) (l1 l2 : list (string * V)) :
  get_field k (l1 ++ l2)
  = match get_field k l1 with Some v => Some v | None => get_field k l2 end.
Proof.
  induction l1 as [|[k1 v1] l1 IH]; simpl; [reflexivity|].
  destruct (String.eqb k k1); [reflexivity | exact IH].
Qed.

Lemma path_not_allowed_param : ~ In "path" allowedParams.
Proof. rewrite <- includes_In. discriminate. Qed.

(** One turn of the loop: an allowed name is set, any other entry is
    skipped. *)
Lemma forward_entry_cases (params : list (string * string)) (kv : string * string) :
  (In (fst kv) allowedParams
   /\ forward_entry params kv = set_field (fst kv) (snd kv) params)
  \/ (~ In (fst kv) allowedParams /\ forward_entry params kv = params).
Proof.
  unfold forward_entry.
  destruct (includes allowedParams (fst kv)) eqn:Hin.
  - apply includes_In in Hin. left. split; [exact Hin|].
    destruct (String.eqb_spec (fst kv) "path") as [E|E]; [|reflexivity].
    rewrite E in Hin. destruct (path_not_allowed_param Hin).
  - right. split.
    + rewrite <- includes_In. congruence.
    + rewrite andb_false_r. reflexivity.
Qed.

Lemma forward_fold_keys (sp : SearchParams) (acc : list (string * string)) (k : string) :
  (forall k', In k' (map fst acc) -> In k' allowedParams) ->
  In k (map fst (fold_left forward_entry sp acc)) -> In k allowedParams.
Proof.
  revert acc. induction sp as [|kv sp IH]; intros acc Hacc; simpl; [apply Hacc|].
  apply IH. intros k'.
  destruct (forward_entry_cases acc kv) as [(Hal & ->)|(_ & ->)]; [|apply Hacc].
  rewrite keys_set_field. intros [->|H]; [exact Hal | apply Hacc; exact H].
Qed.

Lemma forward_fold_in (sp : SearchParams) (acc : list (string * string))
      (k v : string) :
  In (k, v) (fold_left forward_entry sp acc) -> In (k, v) acc \/ In (k, v) sp.
Proof.
  revert acc. induction sp as [|kv sp IH]; intros acc; simpl; [auto|].
  intros H. destruct (IH _ H) as [Hacc|Hsp]; [|auto].
  destruct (forward_entry_cases acc kv) as [(_ & E)|(_ & E)]; rewrite E in Hacc; [|auto].
  apply in_set_field in Hacc. destruct Hacc as [E'|Hacc]; [|auto].
  right. left. rewrite E'. destruct kv; reflexivity.
Qed.

Lemma forward_fold_NoDup (sp : SearchParams) (acc : list (string * string)) :
  NoDup (map fst acc) -> NoDup (map fst (fold_left forward_entry sp acc)).
Proof.
  revert acc. induction sp as [|kv sp IH]; intros acc Hnd; simpl; [exact Hnd|].
  apply IH. destruct (forward_entry_cases acc kv) as [(_ & ->)|(_ & ->)];
    [apply NoDup_set_field; exact Hnd | exact Hnd].
Qed.

(** The value forwarded for an allowed name is the last one inbound. *)
Lemma forward_fold_get (sp : SearchParams) (acc : list (string * string)) (k : string) :
  In k allowedParams ->
  get_field k (fold_left forward_entry sp acc)
  = match searchParams_get k (rev sp) with
    | Some v => Some v
    | None => get_field k acc
    end.
Proof.
  intros Hk. revert acc. induction sp as [|kv sp IH]; intros acc; simpl; [reflexivity|].
  rewrite IH. unfold searchParams_get. rewrite get_field_app.
  destruct (get_field k (rev sp)); [reflexivity|].
  destruct kv as [k1 v1]. simpl.
  destruct (forward_entry_cases acc (k1, v1)) as [(_ & E)|(Hna & E)];
    rewrite E; simpl in *.
  - destruct (String.eqb_spec k k1) as [->|Hne].
    + apply get_set_field_same.
    + apply get_set_field_other. exact Hne.
  - destruct (String.eqb_spec k k1) as [->|Hne]; [contradiction | reflexivity].
Qed.

Lemma forwardedParams_keys (sp : SearchParams) (k v : string) :
  In (k, v) (forwardedParams sp) -> In k allowedParams /\ In (k, v) sp.
Proof.
  intros H. split.
  - apply (forward_fold_keys sp [] k); [intros k' []|].
    apply in_map_iff. exists (k, v). split; [reflexivity | exact H].
  - destruct (forward_fold_in sp [] k v H) as [[]|Hin]. exact Hin.
Qed.

Lemma forwardedParams_get (sp : SearchParams) (k : string) :
  In k allowedParams ->
  get_field k (forwardedParams sp) = searchParams_get k (rev sp).
Proof.
  intros Hk. unfold forwardedParams. rewrite forward_fold_get by exact Hk.
  destruct (searchParams_get k (rev sp)); reflexivity.
Qed.

End ProxyParams.

(** ** Proxy: the handler *)

Section ProxyHandler.
Import Proxy.

Variable JSON_parse : string -> Error + json.
Variable fetch : string -> fetch_outcome.
Variable env : ProcessEnv.

Lemma allowed_base_truthy (o : option string) :
  allowed_base o = true -> truthy o = true.
Proof.
  destruct o as [b|]; [|discriminate]. unfold allowed_base.
  intros H. apply includes_In in H. apply truthy_string_true.
  simpl in H. intuition (subst; discriminate).
Qed.

(** A request that passes the path check and finds the base URL configured
    is sent upstream, once, to the URL built from the path as given. *)
Lemma GET_forwards (sp : SearchParams) (path base : string) :
  searchParams_get "path" sp = Some path -> path <> "" ->
  allowed_base (base_segment path) = true ->
  WORDPRESS_API_URL env = Some base -> base <> "" ->
  snd (GET JSON_parse fetch env sp) = [upstream_url base path (forwardedParams sp)].
Proof.
  intros Hp Hne Hal Hb Hbne. unfold GET. rewrite Hp.
  apply truthy_string_true in Hne. rewrite Hne. simpl negb. cbv iota.
  rewrite Hal, (allowed_base_truthy _ Hal). simpl negb. simpl orb. cbv iota.
  rewrite Hb. apply truthy_string_true in Hbne. rewrite Hbne. reflexivity.
Qed.

(** Every upstream request of the handler has that form. *)
Lemma GET_fetched_inv (sp : SearchParams) (url : string) :
  In url (snd (GET JSON_parse fetch env sp)) ->
  exists path base,
    searchParams_get "path" sp = Some path /\ path <> ""
    /\ allowed_base (base_segment path) = true
    /\ WORDPRESS_API_URL env = Some base /\ base <> ""
    /\ url = upstream_url base path (forwardedParams sp).
Proof.
  unfold GET.
  destruct (searchParams_get "path" sp) as [path|]; [|intros []].
  destruct (truthy_string path) eqn:Hne; simpl negb; cbv iota; [|intros []].
  destruct (truthy (base_segment path)); simpl negb; simpl orb; [|intros []].
  destruct (allowed_base (base_segment path)) eqn:Hal;
    simpl negb; cbv iota; [|intros []].
  destruct (WORDPRESS_API_URL env) as [base|]; [|intros []].
  destruct (truthy_string base) eqn:Hb; simpl negb; cbv iota; [|intros []].
  intros [<-|[]]. exists path, base.
  apply truthy_string_true in Hne. apply truthy_string_true in Hb. auto 10.
Qed.

Lemma first_segment_allowed (first rest : string) :
  In first ALLOWED_PATHS ->
  base_segment (first ++ "/" ++ rest) = Some first
  /\ (first ++ "/" ++ rest)%string <> "".
Proof.
  unfold ALLOWED_PATHS, base_segment. simpl In.
  intros H. repeat (destruct H as [<-|H]; [split; [reflexivity | discriminate]|]).
  destruct H.
Qed.

End ProxyHandler.

(** Counterexample to C4 as worded.  For
    [/api/wp?path=posts&include=1&include=2&callback=x] the upstream URL carries
    [include=2] only: the inbound entry [include=1] has an allowed name and is
    not forwarded with its value. *)
Lemma repeated_param_first_value_lost :
  In ("include", "1") repeated_include
  /\ In "include" Proxy.allowedParams
  /\ ~ In ("include", "1") (Proxy.forwardedParams repeated_include)
  /\ snd (Proxy.GET parse_sample fetch_sample production_legacy repeated_include)
     = ["https://cms.example/wp-json/wp/v2/posts?include=2"].
Proof.
  split; [right; left; reflexivity|].
  split; [do 4 right; left; reflexivity|].
  split; [|reflexivity].
  simpl. intros [H|[]]. discriminate H.
Qed.

(** C4, amended.  Every request the proxy sends upstream goes to the URL made
    of the base URL, the path as given, and the query string serialised from
    the [params] object; and of that object: every name is in the allowed set
    (per_page, page, search, slug, include, _embed), so an inbound parameter of
    any other name is not in the query string built; every entry is an inbound
    entry; each name occurs once; and an allowed name present inbound is
    forwarded with the value of its last inbound occurrence (its value, when
    it occurs once).  What the path itself carries is outside this statement. *)
Theorem forwarded_params_allow_list
        (JSON_parse : string -> Error + json) (fetch : string -> fetch_outcome)
        (env : ProcessEnv) (sp : SearchParams) (url : string) :
  In url (snd (Proxy.GET JSON_parse fetch env sp)) ->
  (exists path base,
      searchParams_get "path" sp = Some path
      /\ Proxy.WORDPRESS_API_URL env = Some base
      /\ url = Proxy.upstream_url base path (Proxy.forwardedParams sp))
  /\ (forall k v, In (k, v) (Proxy.forwardedParams sp) ->
                  In k Proxy.allowedParams /\ In (k, v) sp)
  /\ NoDup (map fst (Proxy.forwardedParams sp))
  /\ (forall k, In k Proxy.allowedParams ->
                get_field k (Proxy.forwardedParams sp) = searchParams_get k (rev sp)).
Proof.
  intros Hin. split; [|split; [|split]].
  - destruct (GET_fetched_inv _ _ _ _ _ Hin) as (path & base & Hp & _ & _ & Hb & _ & E).
    exists path, base. auto.
  - apply forwardedParams_keys.
  - apply forward_fold_NoDup. constructor.
  - apply forwardedParams_get.
Qed.

Lemma forwarded_params_allow_list_witness :
  get_field "include" (Proxy.forwardedParams repeated_include) = Some "2"
  /\ forall k v, In (k, v) (Proxy.forwardedParams repeated_include) ->
                 In k Proxy.allowedParams /\ In (k, v) repeated_include.
Proof.
  pose proof (forwarded_params_allow_list parse_sample fetch_sample production_legacy
                repeated_include "https://cms.example/wp-json/wp/v2/posts?include=2"
                (or_introl eq_refl)) as (_ & Hkeys & _ & Hget).
  split; [|exact Hkeys].
  rewrite Hget; [reflexivity|]. do 4 right. left. reflexivity.
Defined.

(** ** Proxy: path validation *)

Example GET_unknown_type :
  Proxy.GET parse_sample fetch_sample production_legacy [("path", "unknownType")]
  = (Proxy.mkNextResponse 400 (JObj [("error", JStr "Invalid path parameter")]), []).
Proof. reflexivity. Qed.

(** Counterexample to C5 as worded.  For [/api/wp?path=] the path parameter is
    there and has no non-empty segment, and the answer is "Missing path
    parameter", not "Invalid path parameter". *)
Lemma empty_path_reported_missing :
  searchParams_get "path" [("path", "")] = Some ""
  /\ Proxy.base_segment "" = None
  /\ fst (Proxy.GET parse_sample fetch_sample production_legacy [("path", "")])
     = Proxy.missing_path
  /\ fst (Proxy.GET parse_sample fetch_sample production_legacy [("path", "")])
     <> Proxy.invalid_path.
Proof. repeat split. discriminate. Qed.

(** C5, amended.  A request with no path parameter, or with an empty one, gets
    status 400 with body {error: "Missing path parameter"}.  A request whose
    path is not empty and whose first non-empty segment is not in the allow-list
    (posts, pages, media, categories, tags), or which has no non-empty segment,
    gets status 400 with body {error: "Invalid path parameter"}.  Neither is
    forwarded upstream. *)
Theorem path_validation
        (JSON_parse : string -> Error + json) (fetch : string -> fetch_outcome)
        (env : ProcessEnv) (sp : SearchParams) :
  (truthy (searchParams_get "path" sp) = false ->
   Proxy.GET JSON_parse fetch env sp
   = (Proxy.mkNextResponse 400 (JObj [("error", JStr "Missing path parameter")]), []))
  /\ (forall path,
        searchParams_get "path" sp = Some path -> path <> "" ->
        Proxy.allowed_base (Proxy.base_segment path) = false ->
        Proxy.GET JSON_parse fetch env sp
        = (Proxy.mkNextResponse 400 (JObj [("error", JStr "Invalid path parameter")]), [])).
Proof.
  split.
  - intros Hp. unfold Proxy.GET.
    destruct (searchParams_get "path" sp) as [path|]; [|reflexivity].
    simpl in Hp. rewrite Hp. reflexivity.
  - intros path Hp Hne Hal. unfold Proxy.GET. rewrite Hp.
    apply truthy_string_true in Hne. rewrite Hne, Hal.
    simpl negb. rewrite orb_true_r. reflexivity.
Qed.

Lemma path_validation_witness :
  Proxy.GET parse_sample fetch_sample production_legacy [("page", "2")]
  = (Proxy.mkNextResponse 400 (JObj [("error", JStr "Missing path parameter")]), [])
  /\ Proxy.GET parse_sample fetch_sample production_legacy [("path", "users/1")]
     = (Proxy.mkNextResponse 400 (JObj [("error", JStr "Invalid path parameter")]), [])
  /\ Proxy.GET parse_sample fetch_sample production_legacy [("path", "//")]
     = (Proxy.mkNextResponse 400 (JObj [("error", JStr "Invalid path parameter")]), []).
Proof.
  split; [|split].
  - apply (proj1 (path_validation parse_sample fetch_sample production_legacy
                    [("page", "2")])).
    reflexivity.
  - apply (proj2 (path_validation parse_sample fetch_sample production_legacy
                    [("path", "users/1")]) "users/1");
      [reflexivity | discriminate | reflexivity].
  - apply (proj2 (path_validation parse_sample fetch_sample production_legacy
                    [("path", "//")]) "//");
      [reflexivity | discriminate | reflexivity].
Defined.

(** The path is put into the URL as it is, so a query string inside the path
    reaches the upstream: [/api/wp?path=posts/%3Fcallback%3Dx]. *)
Example GET_path_with_query :
  snd (Proxy.GET parse_sample fetch_sample production_legacy
         [("path", "posts/?callback=x")])
  = ["https://cms.example/wp-json/wp/v2/posts/?callback=x"].
Proof. reflexivity. Qed.

Example GET_deep_path :
  snd (Proxy.GET parse_sample fetch_sample production_legacy
         [("path", "posts/../users/1"); ("page", "2")])
  = ["https://cms.example/wp-json/wp/v2/posts/../users/1?page=2"].
Proof. reflexivity. Qed.

(** C10.  Only the first non-empty segment of the path is validated.  For a
    path of several segments whose first segment is in the allow-list, with the
    base URL configured, the request is sent upstream and the whole path, with
    all the remaining segments whatever they are, stands in the upstream URL as
    it was given. *)
Theorem remaining_segments_forwarded_verbatim
        (JSON_parse : string -> Error + json) (fetch : string -> fetch_outcome)
        (env : ProcessEnv) (sp : SearchParams) (base first rest : string) :
  Proxy.WORDPRESS_API_URL env = Some base -> base <> "" ->
  In first Proxy.ALLOWED_PATHS ->
  searchParams_get "path" sp = Some (first ++ "/" ++ rest) ->
  exists query,
    snd (Proxy.GET JSON_parse fetch env sp)
    = [base ++ "/wp-json/wp/v2/" ++ first ++ "/" ++ rest ++ query]
    /\ query = (if truthy_string (URLSearchParams_toString (Proxy.forwardedParams sp))
                then "?" ++ URLSearchParams_toString (Proxy.forwardedParams sp)
                else "").
Proof.
  intros Hb Hbne Hfirst Hp.
  destruct (first_segment_allowed first rest Hfirst) as [Hseg Hne].
  eexists. split; [|reflexivity].
  rewrite (GET_forwards JSON_parse fetch env sp _ base Hp Hne); [|rewrite Hseg|exact Hb|exact Hbne].
  - unfold Proxy.upstream_url. cbv zeta. rewrite !string_app_assoc. reflexivity.
  - unfold Proxy.allowed_base. apply includes_In. exact Hfirst.
Qed.

Lemma remaining_segments_forwarded_verbatim_witness :
  exists query,
    snd (Proxy.GET parse_sample fetch_sample production_legacy
           [("path", "posts/../users/1"); ("page", "2")])
    = ["https://cms.example" ++ "/wp-json/wp/v2/" ++ "posts" ++ "/" ++ "../users/1" ++ query]
    /\ query = "?page=2".
Proof.
  apply (remaining_segments_forwarded_verbatim parse_sample fetch_sample
           production_legacy [("path", "posts/../users/1"); ("page", "2")]
           "https://cms.example" "posts" "../users/1").
  - reflexivity.
  - discriminate.
  - left. reflexivity.
  - reflexivity.
Defined.

(* ===================================================================== *)
(** * Further properties of the code *)
(* ===================================================================== *)

(** ** Query strings *)

Lemma string_forallb_app (p : ascii -> bool) (a b : string) :
  string_forallb p (a ++ b) = string_forallb p a && string_forallb p b.
Proof.
  induction a as [|c a IH]; simpl; [reflexivity|].
  rewrite IH. apply andb_assoc.
Qed.

Lemma string_forallb_impl (p q : ascii -> bool) (s : string) :
  (forall c, p c = true -> q c = true) ->
  string_forallb p s = true -> string_forallb q s = true.
Proof.
  intros Hpq. induction s as [|c s IH]; simpl; [reflexivity|].
  intros H. apply andb_true_iff in H. destruct H as [Hc Hs].
  rewrite (Hpq c Hc), (IH Hs). reflexivity.
Qed.

Lemma urlencode_byte_alphabet (c : ascii) :
  string_forallb urlencoded_byte_ok (urlencode_byte c) = true.
Proof.
  destruct c as [[] [] [] [] [] [] [] []]; reflexivity.
Qed.

(** X1.  A serialized name or value is made of ASCII letters and digits, of
    [* - . _], of [+] and of [%] only: it holds no ampersand, equals sign,
    question mark, hash or slash, so a forwarded value cannot end its own
    parameter or start another one. *)
Theorem urlencode_alphabet (s : string) :
  string_forallb
    (fun c => urlencoded_safe c || Ascii.eqb c "+"%char || Ascii.eqb c "%"%char)
    (urlencode s) = true
  /\ string_forallb
       (fun c => negb (Ascii.eqb c "&"%char) && negb (Ascii.eqb c "="%char)
                 && negb (Ascii.eqb c "?"%char) && negb (Ascii.eqb c "#"%char)
                 && negb (Ascii.eqb c "/"%char))
       (urlencode s) = true.
Proof.
  assert (H : string_forallb urlencoded_byte_ok (urlencode s) = true).
  { induction s as [|c s IH]; simpl; [reflexivity|].
    rewrite string_forallb_app, urlencode_byte_alphabet, IH. reflexivity. }
  split; [exact H|].
  revert H. apply string_forallb_impl.
  intros c. destruct c as [[] [] [] [] [] [] [] []]; cbv; congruence.
Qed.

Lemma urldecode_byte (c : ascii) (rest : string) :
  urldecode (urlencode_byte c ++ rest) = String c (urldecode rest).
Proof.
  unfold urldecode.
  destruct c as [[] [] [] [] [] [] [] []]; reflexivity.
Qed.

Lemma urldecode_inverse (s : string) : urldecode (urlencode s) = s.
Proof.
  induction s as [|c s IH]; simpl; [reflexivity|].
  rewrite urldecode_byte, IH. reflexivity.
Qed.

(** X2.  Decoding undoes the serialization of a name or value, whatever its
    bytes; so two different strings never serialize to the same text. *)
Theorem urldecode_urlencode (s t : string) :
  urldecode (urlencode s) = s
  /\ (urlencode s = urlencode t -> s = t).
Proof.
  split; [apply urldecode_inverse|].
  intros E. rewrite <- (urldecode_inverse s), <- (urldecode_inverse t), E.
  reflexivity.
Qed.

Lemma urldecode_urlencode_witness : "a b" = "a b".
Proof.
  apply (proj2 (urldecode_urlencode "a b" "a b")). reflexivity.
Defined.

Lemma urlencode_no_separator (s : string) :
  string_forallb not_separator (urlencode s) = true.
Proof.
  induction s as [|c s IH]; simpl; [reflexivity|].
  rewrite string_forallb_app, IH, andb_true_r.
  destruct c as [[] [] [] [] [] [] [] []]; reflexivity.
Qed.

Lemma cut_at_app (sep : ascii) (a b : string) :
  string_forallb (fun c => negb (Ascii.eqb c sep)) a = true ->
  cut_at sep (a ++ String sep b) = (a, b).
Proof.
  induction a as [|c a IH]; simpl.
  - rewrite Ascii.eqb_refl. reflexivity.
  - intros H. apply andb_true_iff in H. destruct H as [Hc Ha].
    apply negb_true_iff in Hc. rewrite Hc, (IH Ha). reflexivity.
Qed.

Lemma split_app_sep (sep : ascii) (a b : string) :
  string_forallb (fun c => negb (Ascii.eqb c sep)) a = true ->
  split sep (a ++ String sep b) = a :: split sep b.
Proof.
  induction a as [|c a IH]; simpl.
  - rewrite Ascii.eqb_refl. reflexivity.
  - intros H. apply andb_true_iff in H. destruct H as [Hc Ha].
    apply negb_true_iff in Hc. rewrite Hc, (IH Ha). reflexivity.
Qed.

Lemma split_no_sep (sep : ascii) (a : string) :
  string_forallb (fun c => negb (Ascii.eqb c sep)) a = true ->
  split sep a = [a].
Proof.
  induction a as [|c a IH]; simpl; [reflexivity|].
  intros H. apply andb_true_iff in H. destruct H as [Hc Ha].
  apply negb_true_iff in Hc. rewrite Hc, (IH Ha). reflexivity.
Qed.

Lemma entry_no_ampersand (kv : string * string) :
  string_forallb (fun c => negb (Ascii.eqb c "&"%char)) (urlencode_entry kv) = true.
Proof.
  unfold urlencode_entry.
  rewrite string_forallb_app. simpl.
  rewrite !(string_forallb_impl not_separator _ _ (fun c H => proj1 (proj1 (andb_true_iff _ _) H)))
    by apply urlencode_no_separator.
  reflexivity.
Qed.

Lemma entry_decoded (kv : string * string) :
  (urldecode (fst (cut_at "="%char (urlencode_entry kv))),
   urldecode (snd (cut_at "="%char (urlencode_entry kv)))) = kv.
Proof.
  unfold urlencode_entry. change ("=" ++ urlencode (snd kv))%string
    with (String "="%char (urlencode (snd kv))).
  rewrite cut_at_app.
  - simpl. rewrite !urldecode_inverse. destruct kv; reflexivity.
  - refine (string_forallb_impl not_separator _ _ _ (urlencode_no_separator _)).
    intros c H. apply andb_true_iff in H. tauto.
Qed.

Lemma entry_truthy (kv : string * string) : truthy_string (urlencode_entry kv) = true.
Proof.
  apply truthy_string_true. unfold urlencode_entry.
  destruct (urlencode (fst kv)); simpl; discriminate.
Qed.

Lemma filter_Boolean_cons (x : string) (l : list string) :
  truthy_string x = true -> filter_Boolean (x :: l) = x :: filter_Boolean l.
Proof. intros H. unfold filter_Boolean. simpl. rewrite H. reflexivity. Qed.

Lemma split_serialized (l : list (string * string)) :
  filter_Boolean (split "&"%char (join "&" (map urlencode_entry l)))
  = map urlencode_entry l.
Proof.
  unfold join. induction l as [|kv l IH]; [reflexivity|].
  destruct l as [|kv' l].
  - simpl String.concat. rewrite split_no_sep by apply entry_no_ampersand.
    rewrite filter_Boolean_cons by apply entry_truthy. reflexivity.
  - remember (kv' :: l) as l' eqn:El'.
    assert (E : String.concat "&" (map urlencode_entry (kv :: l'))
                = (urlencode_entry kv
                   ++ String "&"%char (String.concat "&" (map urlencode_entry l')))%string).
    { rewrite El'. reflexivity. }
    rewrite E, split_app_sep by apply entry_no_ampersand.
    rewrite filter_Boolean_cons by apply entry_truthy.
    rewrite IH. reflexivity.
Qed.

(** X3.  Reading back a serialized query string gives the very entries that
    were serialized, in their order: names and values with any bytes, empty
    ones and repeated names included. *)
Theorem parse_query_toString (l : list (string * string)) :
  parse_query (URLSearchParams_toString l) = l.
Proof.
  unfold parse_query, URLSearchParams_toString.
  change (fun kv : string * string => urlencode (fst kv) ++ "=" ++ urlencode (snd kv))%string
    with urlencode_entry.
  rewrite split_serialized, map_map.
  induction l as [|kv l IH]; simpl; [reflexivity|].
  rewrite entry_decoded, IH. reflexivity.
Qed.

(** ** Proxy: answers and upstream requests *)

Section ProxyAnswers.
Import Proxy.

Variable JSON_parse : string -> Error + json.
Variable fetch : string -> fetch_outcome.
Variable env : ProcessEnv.

Lemma GET_cases (sp : SearchParams) :
  GET JSON_parse fetch env sp = (missing_path, [])
  \/ GET JSON_parse fetch env sp = (invalid_path, [])
  \/ (GET JSON_parse fetch env sp = (not_configured, [])
      /\ truthy (WORDPRESS_API_URL env) = false)
  \/ exists path base,
       searchParams_get "path" sp = Some path
       /\ WORDPRESS_API_URL env = Some base
       /\ truthy_string base = true
       /\ GET JSON_parse fetch env sp
          = (match relay JSON_parse (fetch (upstream_url base path (forwardedParams sp))) with
             | inr data => mkNextResponse 200 data
             | inl error => fetch_failed error
             end, [upstream_url base path (forwardedParams sp)]).
Proof.
  unfold GET.
  destruct (searchParams_get "path" sp) as [path|]; [|auto].
  destruct (truthy_string path); simpl negb; cbv iota; [|auto].
  destruct (negb (truthy (base_segment path)) || negb (allowed_base (base_segment path)));
    [auto|].
  destruct (WORDPRESS_API_URL env) as [base|] eqn:Hb; [|auto].
  destruct (truthy_string base) eqn:Hbt; simpl negb; cbv iota.
  - right. right. right. exists path, base. auto.
  - right. right. left. split; [reflexivity | exact Hbt].
Qed.

End ProxyAnswers.

(** X4.  The proxy answers with status 200, 400 or 500 and no other; it sends
    at most one upstream request, and none when it answers 400 or when no base
    URL is configured. *)
Theorem GET_status_and_requests
        (JSON_parse : string -> Error + json) (fetch : string -> fetch_outcome)
        (env : ProcessEnv) (sp : SearchParams) :
  let answer := Proxy.GET JSON_parse fetch env sp in
  (Proxy.res_status (fst answer) = 200 \/ Proxy.res_status (fst answer) = 400
   \/ Proxy.res_status (fst answer) = 500)
  /\ (length (snd answer) <= 1)%nat
  /\ (Proxy.res_status (fst answer) = 400 -> snd answer = [])
  /\ (truthy (Proxy.WORDPRESS_API_URL env) = false -> snd answer = []).
Proof.
  cbv zeta.
  destruct (GET_cases JSON_parse fetch env sp)
    as [E|[E|[[E _]|(path & base & _ & Hb & Hbt & E)]]]; rewrite E; simpl;
    try (repeat split; auto; fail).
  destruct (Proxy.relay JSON_parse _); simpl; repeat split; auto; try discriminate.
  all: rewrite Hb; simpl; congruence.
Qed.

Lemma GET_status_and_requests_witness :
  snd (Proxy.GET parse_sample fetch_sample development_unset [("path", "posts")]) = [].
Proof.
  apply (proj2 (proj2 (proj2 (GET_status_and_requests parse_sample fetch_sample
                                development_unset [("path", "posts")])))).
  reflexivity.
Defined.

(** X5.  The path is checked before the configuration and before any
    request: an answer with status 400 is the same under every configuration
    and every upstream; and a request with a valid path, when no base URL is
    configured, gets the 500 answer "WordPress API URL is not configured". *)
Theorem GET_path_checked_first
        (JSON_parse JSON_parse' : string -> Error + json)
        (fetch fetch' : string -> fetch_outcome)
        (env env' : ProcessEnv) (sp : SearchParams) :
  (Proxy.res_status (fst (Proxy.GET JSON_parse fetch env sp)) = 400 ->
   Proxy.GET JSON_parse' fetch' env' sp = Proxy.GET JSON_parse fetch env sp)
  /\ (truthy (Proxy.WORDPRESS_API_URL env) = false ->
      Proxy.res_status (fst (Proxy.GET JSON_parse fetch env sp)) <> 400 ->
      Proxy.GET JSON_parse fetch env sp
      = (Proxy.mkNextResponse 500
           (JObj [("error", JStr "Internal server error");
                  ("message", JStr "WordPress API URL is not configured");
                  ("status", JNum 500)]), [])).
Proof.
  split.
  - unfold Proxy.GET.
    destruct (searchParams_get "path" sp) as [path|]; [|reflexivity].
    destruct (truthy_string path); simpl negb; cbv iota; [|reflexivity].
    destruct (negb (truthy (Proxy.base_segment path))
              || negb (Proxy.allowed_base (Proxy.base_segment path))); [reflexivity|].
    destruct (Proxy.WORDPRESS_API_URL env) as [base|]; [|discriminate].
    destruct (truthy_string base); simpl negb; cbv iota; [|discriminate].
    simpl. destruct (Proxy.relay JSON_parse _); simpl; discriminate.
  - intros Hb Hst.
    destruct (GET_cases JSON_parse fetch env sp)
      as [E|[E|[[E _]|(path & base & _ & Hb' & Hbt & E)]]].
    + rewrite E in Hst. destruct Hst. reflexivity.
    + rewrite E in Hst. destruct Hst. reflexivity.
    + exact E.
    + rewrite Hb' in Hb. simpl in Hb. congruence.
Qed.

Lemma GET_path_checked_first_witness :
  Proxy.GET parse_sample fetch_sample production_legacy [("path", "users")]
  = Proxy.GET parse_sample fetch_sample development_unset [("path", "users")]
  /\ Proxy.res_status
       (fst (Proxy.GET parse_sample fetch_sample development_unset [("path", "posts")]))
     = 500.
Proof.
  split.
  - apply (proj1 (GET_path_checked_first parse_sample parse_sample fetch_sample
                    fetch_sample development_unset production_legacy
                    [("path", "users")])).
    reflexivity.
  - rewrite (proj2 (GET_path_checked_first parse_sample parse_sample fetch_sample
                      fetch_sample development_unset development_unset
                      [("path", "posts")]));
      [reflexivity | reflexivity | discriminate].
Defined.



Lemma set_field_fresh {V : Type} (k : string) (v : V) (o : list (string * V)) :
  ~ In k (map fst o) -> set_field k v o = (o ++ [(k, v)])%list.
Proof.
  induction o as [|[k' v'] o IH]; simpl; [reflexivity|].
  intros Hnot. destruct (String.eqb_spec k k') as [->|Hne].
  - destruct Hnot. left. reflexivity.
  - rewrite IH; [reflexivity|]. intros H. apply Hnot. right. exact H.
Qed.

Lemma forward_fold_fixed (l acc : list (string * string)) :
  (forall kv, In kv l -> In (fst kv) Proxy.allowedParams) ->
  NoDup (map fst (acc ++ l)%list) ->
  fold_left Proxy.forward_entry l acc = (acc ++ l)%list.
Proof.
  revert acc. induction l as [|kv l IH]; intros acc Hal Hnd; simpl.
  - rewrite app_nil_r. reflexivity.
  - destruct (forward_entry_cases acc kv) as [(_ & E)|(Hna & _)].
    + rewrite E, set_field_fresh.
      * rewrite IH.
        -- rewrite <- app_assoc. destruct kv; reflexivity.
        -- intros kv' Hin. apply Hal. right. exact Hin.
        -- rewrite <- app_assoc. destruct kv; exact Hnd.
      * rewrite map_app in Hnd. simpl in Hnd.
        apply NoDup_remove_2 in Hnd. intros Hin. apply Hnd.
        apply in_or_app. left. exact Hin.
    + destruct Hna. apply Hal. left. reflexivity.
Qed.

(** X7.  Filtering is idempotent: the parameters the proxy forwards, sent
    through the filter again, come out unchanged, in the same order. *)
Theorem forwardedParams_idempotent (sp : SearchParams) :
  Proxy.forwardedParams (Proxy.forwardedParams sp) = Proxy.forwardedParams sp.
Proof.
  unfold Proxy.forwardedParams at 1.
  rewrite forward_fold_fixed; [reflexivity| |].
  - intros [k v] Hin. apply (forwardedParams_keys sp k v Hin).
  - simpl. apply forward_fold_NoDup. constructor.
Qed.

(** ** The wordpress module: requests *)

Lemma spread_get {V : Type} (params acc : list (string * V)) (k : string) :
  get_field k (fold_left (fun acc kv => set_field (fst kv) (snd kv) acc) params acc)
  = match get_field k (rev params) with
    | Some v => Some v
    | None => get_field k acc
    end.
Proof.
  revert acc. induction params as [|[k1 v1] params IH]; intros acc; simpl; [reflexivity|].
  rewrite IH, get_field_app.
  destruct (get_field k (rev params)); [reflexivity|]. simpl.
  destruct (String.eqb_spec k k1) as [->|Hne].
  - apply get_set_field_same.
  - apply get_set_field_other. exact Hne.
Qed.

Lemma spread_NoDup {V : Type} (params acc : list (string * V)) :
  NoDup (map fst acc) ->
  NoDup (map fst (fold_left (fun acc kv => set_field (fst kv) (snd kv) acc) params acc)).
Proof.
  revert acc. induction params as [|kv params IH]; intros acc Hnd; simpl; [exact Hnd|].
  apply IH, NoDup_set_field, Hnd.
Qed.

Lemma get_field_filter_fresh {V : Type} (p : string * V -> bool) (k : string)
      (l : list (string * V)) :
  ~ In k (map fst l) -> get_field k (filter p l) = None.
Proof.
  induction l as [|[k1 v1] l IH]; simpl; [reflexivity|].
  intros Hnot. destruct (p (k1, v1)); simpl.
  - destruct (String.eqb_spec k k1) as [->|_]; [tauto|]. apply IH. tauto.
  - apply IH. tauto.
Qed.

Lemma get_field_filter_dropped {V : Type} (p : string * V -> bool) (k : string) (v : V)
      (l : list (string * V)) :
  NoDup (map fst l) -> get_field k l = Some v -> p (k, v) = false ->
  get_field k (filter p l) = None.
Proof.
  induction l as [|[k1 v1] l IH]; simpl; [discriminate|].
  intros Hnd Hget Hp. inversion Hnd as [|? ? Hnotin Hnd']; subst.
  destruct (String.eqb_spec k k1) as [->|Hne].
  - injection Hget as ->. rewrite Hp. apply get_field_filter_fresh. exact Hnotin.
  - destruct (p (k1, v1)); simpl.
    + destruct (String.eqb_spec k k1); [contradiction|]. apply IH; assumption.
    + apply IH; assumption.
Qed.

(** X8.  The parameters of [getPosts]: each name occurs once; a name the caller
    passes has the caller's (last) value; any other name has its default,
    [_embed] true and [per_page] 100.  A name passed as [undefined] is in no
    entry of the query list. *)
Theorem getPosts_params_override (params : list (string * scalar)) (k : string) :
  NoDup (map fst (Wordpress.defaultParams params))
  /\ get_field k (Wordpress.defaultParams params)
     = match get_field k (rev params) with
       | Some v => Some v
       | None => get_field k [("_embed", SBool true); ("per_page", SNum 100)]
       end
  /\ (get_field k (rev params) = Some SUndefined ->
      get_field k (filter (fun kv => is_defined (snd kv)) (Wordpress.defaultParams params))
      = None).
Proof.
  assert (Hnd : NoDup (map fst (Wordpress.defaultParams params))).
  { apply spread_NoDup. simpl. repeat constructor; simpl; intuition discriminate. }
  assert (Hget : get_field k (Wordpress.defaultParams params)
                 = match get_field k (rev params) with
                   | Some v => Some v
                   | None => get_field k [("_embed", SBool true); ("per_page", SNum 100)]
                   end) by apply spread_get.
  split; [exact Hnd|]. split; [exact Hget|].
  intros Hu. rewrite Hu in Hget.
  apply (get_field_filter_dropped _ k SUndefined); [exact Hnd | exact Hget | reflexivity].
Qed.

Lemma getPosts_params_override_witness :
  get_field "per_page"
    (filter (fun kv => is_defined (snd kv))
            (Wordpress.defaultParams [("per_page", SUndefined); ("page", SNum 2)]))
  = None.
Proof.
  apply (proj2 (proj2 (getPosts_params_override
                         [("per_page", SUndefined); ("page", SNum 2)] "per_page"))).
  reflexivity.
Defined.

(** The slug lookup of the wordpress module asks for the post type with the
    query [_embed=true&per_page=100&slug=...], the slug serialized. *)
Lemma getPostBySlug_request_url (env : ProcessEnv) (postType slug : string) :
  Wordpress.posts_url env postType [("slug", SStr slug); ("_embed", SBool true)]
  = Wordpress.WORDPRESS_API_URL env ++ "/wp-json/wp/v2/" ++ postType
    ++ "?_embed=true&per_page=100&slug=" ++ urlencode slug.
Proof. reflexivity. Qed.

Section WordpressRequests.

Variable JSON_parse : string -> Error + json.
Variable fetch : string -> fetch_outcome.
Variable env : ProcessEnv.

(** X10.  The slug lookup of the wordpress module is fail-hard.  It rejects
    with the error of a failed request, with "Failed to fetch {type}" on a
    response that is not 2xx, and with "No {type} found with slug: {slug}" on
    an empty list; on a list that is not empty it gives the first post. *)
Theorem wordpress_getPostBySlug_outcomes (postType slug : string) :
  let url := Wordpress.posts_url env postType [("slug", SStr slug); ("_embed", SBool true)] in
  (forall e, fetch url = Rejected e ->
     Wordpress.getPostBySlug JSON_parse fetch env postType slug = inl e)
  /\ (forall r, fetch url = Resolved r -> ok r = false ->
        Wordpress.getPostBySlug JSON_parse fetch env postType slug
        = inl ("Failed to fetch " ++ postType))
  /\ (forall r body, fetch url = Resolved r -> ok r = true -> text r = inr body ->
        JSON_parse body = inr (JArr []) ->
        Wordpress.getPostBySlug JSON_parse fetch env postType slug
        = inl ("No " ++ postType ++ " found with slug: " ++ slug))
  /\ (forall r body post posts, fetch url = Resolved r -> ok r = true ->
        text r = inr body -> JSON_parse body = inr (JArr (post :: posts)) ->
        Wordpress.getPostBySlug JSON_parse fetch env postType slug = inr (Some post)).
Proof.
  cbv zeta. unfold Wordpress.getPostBySlug, Wordpress.getPosts. repeat split.
  - intros e ->. reflexivity.
  - intros r -> Hok. simpl. rewrite Hok. reflexivity.
  - intros r body -> Hok Ht Hp. simpl. rewrite Hok, Ht. simpl. rewrite Hp. reflexivity.
  - intros r body post posts -> Hok Ht Hp. simpl. rewrite Hok, Ht. simpl. rewrite Hp.
    reflexivity.
Qed.

(** X11.  [getFeaturedImageUrl] never rejects.  When the request succeeds
    with a 2xx response whose body is a JSON object with a truthy
    [source_url], it gives that [source_url]; in every other case it gives
    [null]. *)
Theorem getFeaturedImageUrl_outcomes (mediaId : Z) :
  (forall r body fields v,
     fetch (Wordpress.media_url env mediaId) = Resolved r -> ok r = true ->
     text r = inr body -> JSON_parse body = inr (JObj fields) ->
     get_field "source_url" fields = Some v -> truthy_json v = true ->
     Wordpress.getFeaturedImageUrl JSON_parse fetch env mediaId = inr v)
  /\ exists v,
       Wordpress.getFeaturedImageUrl JSON_parse fetch env mediaId = inr v
       /\ (v <> JNull ->
           exists r body fields,
             fetch (Wordpress.media_url env mediaId) = Resolved r /\ ok r = true
             /\ text r = inr body /\ JSON_parse body = inr (JObj fields)
             /\ get_field "source_url" fields = Some v /\ truthy_json v = true).
Proof.
  unfold Wordpress.getFeaturedImageUrl. split.
  - intros r body fields v -> Hok Ht Hp Hg Hv. simpl. rewrite Hok, Ht. simpl.
    rewrite Hp. simpl. rewrite Hg, Hv. reflexivity.
  - destruct (fetch (Wordpress.media_url env mediaId)) as [e|r] eqn:Hf; simpl.
    + exists JNull. split; [reflexivity | congruence].
    + destruct (ok r) eqn:Hok; simpl; [|exists JNull; split; [reflexivity | congruence]].
      destruct (text r) as [e|body] eqn:Ht; simpl;
        [exists JNull; split; [reflexivity | congruence]|].
      destruct (JSON_parse body) as [e|media] eqn:Hp; simpl;
        [exists JNull; split; [reflexivity | congruence]|].
      exists (Wordpress.source_url_or_null media). split; [reflexivity|].
      intros Hv. destruct media as [| | | | |fields]; simpl in Hv; try congruence.
      simpl. destruct (get_field "source_url" fields) as [v|] eqn:Hg; [|congruence].
      destruct (truthy_json v) eqn:Hv'; [|congruence].
      exists r, body, fields. auto 10.
Qed.

End WordpressRequests.

Lemma wordpress_getPostBySlug_outcomes_witness :
  Wordpress.getPostBySlug parse_sample fetch_sample production_legacy "rooms" "deluxe"
  = inl "No rooms found with slug: deluxe".
Proof.
  apply (proj1 (proj2 (proj2 (wordpress_getPostBySlug_outcomes parse_sample fetch_sample
           production_legacy "rooms" "deluxe")))
           (mkResponse true 200 "OK" (inr "[]")) "[]");
    reflexivity.
Defined.

Lemma getFeaturedImageUrl_outcomes_witness :
  Wordpress.getFeaturedImageUrl parse_media fetch_media production_legacy 12
  = inr (JStr "/uploads/a.jpg").
Proof.
  apply (proj1 (getFeaturedImageUrl_outcomes parse_media fetch_media production_legacy 12)
               (mkResponse true 200 "OK" (inr "{}")) "{}"
               [("id", JNum 12); ("source_url", JStr "/uploads/a.jpg")]);
    reflexivity.
Defined.

(** ** The api module: requests *)

Lemma get_field_filter_other {V : Type} (k k' : string) (l : list (string * V)) :
  k <> k' ->
  get_field k (filter (fun kv => negb (String.eqb (fst kv) k')) l) = get_field k l.
Proof.
  intros Hne. induction l as [|[k1 v1] l IH]; simpl; [reflexivity|].
  destruct (String.eqb_spec k1 k') as [->|Hk]; simpl.
  - destruct (String.eqb_spec k k'); [contradiction | exact IH].
  - destruct (String.eqb_spec k k1); [reflexivity | exact IH].
Qed.

Lemma searchParams_get_set (k name value : string) (sp : SearchParams) :
  searchParams_get k (searchParams_set name value sp)
  = if String.eqb k name then Some value else searchParams_get k sp.
Proof.
  unfold searchParams_get.
  induction sp as [|[k1 v1] sp IH]; simpl.
  - reflexivity.
  - destruct (String.eqb_spec k1 name) as [->|Hk]; simpl.
    + destruct (String.eqb_spec k name) as [->|Hne]; [reflexivity|].
      apply get_field_filter_other. exact Hne.
    + destruct (String.eqb_spec k k1) as [->|Hne].
      * destruct (String.eqb_spec k1 name); [contradiction | reflexivity].
      * exact IH.
Qed.

Section ApiRequests.

Variable JSON_parse : string -> Error + json.
Variable fetch : string -> fetch_outcome.
Variable env : ProcessEnv.
Variable URL : Type.
Variable URL_new : string -> Error + URL.
Variable URL_searchParams : URL -> SearchParams.
Variable URL_toString : URL -> SearchParams -> string.

(** X12.  The query parameters [fetchAPI] sets: a name takes the string of
    the last value passed for it that is neither [undefined] nor [null]; a
    name with no such value keeps what the URL had for it. *)
Theorem set_params_lookup (params : list (string * scalar)) (sp : SearchParams)
        (k : string) :
  searchParams_get k (Api.set_params params sp)
  = match get_field k (rev (filter (fun kv => is_present (snd kv)) params)) with
    | Some v => Some (String_of v)
    | None => searchParams_get k sp
    end.
Proof.
  unfold Api.set_params. revert sp.
  induction params as [|[k1 v1] params IH]; intros sp; simpl; [reflexivity|].
  rewrite IH. destruct (is_present v1) eqn:Hp; simpl.
  - rewrite get_field_app.
    destruct (get_field k (rev (filter (fun kv => is_present (snd kv)) params)));
      [reflexivity|].
    simpl. rewrite searchParams_get_set.
    destruct (String.eqb k k1); reflexivity.
  - reflexivity.
Qed.


(** X14.  The slug lookup of the api module is tolerant: it never rejects.
    Whatever it gives other than [null] is the first element of the data the
    request gave. *)
Theorem api_getPostBySlug_tolerant (type slug : string) :
  exists v,
    Api.getPostBySlug JSON_parse fetch env URL URL_new URL_searchParams URL_toString
                      type slug = inr v
    /\ (v <> Some JNull ->
        exists data,
          fst (Api.fetchAPI JSON_parse fetch env URL URL_new URL_searchParams
                            URL_toString type [("slug", SStr slug); ("_embed", SBool true)])
          = inr data
          /\ length_truthy data = inr true /\ v = index0 data).
Proof.
  unfold Api.getPostBySlug.
  destruct (fst (Api.fetchAPI JSON_parse fetch env URL URL_new URL_searchParams
                              URL_toString type _)) as [e|data]; simpl.
  - exists (Some JNull). split; [reflexivity | congruence].
  - destruct (length_truthy data) as [e|[|]] eqn:Hl; simpl.
    + exists (Some JNull). split; [reflexivity | congruence].
    + exists (index0 data). split; [reflexivity|]. intros _. exists data. auto.
    + exists (Some JNull). split; [reflexivity | congruence].
Qed.


(** X16.  [getRooms] never rejects, and it does not check what it parsed: a
    2xx response whose body parses to any value but [null] gives that value,
    list or not; and whatever [getRooms] gives other than the empty list is
    such a parsed body. *)
Theorem getRooms_outcomes :
  (forall r body v,
     fetch (Api.rooms_url env) = Resolved r -> ok r = true ->
     text r = inr body -> body <> "" -> JSON_parse body = inr v -> v <> JNull ->
     Api.getRooms JSON_parse fetch env = inr v)
  /\ exists v,
       Api.getRooms JSON_parse fetch env = inr v
       /\ (v <> JArr [] ->
           exists r body,
             fetch (Api.rooms_url env) = Resolved r /\ ok r = true
             /\ text r = inr body /\ JSON_parse body = inr v).
Proof.
  split; [intros r body v; apply getRooms_success|].
  unfold Api.getRooms.
  destruct (fetch (Api.rooms_url env)) as [e|r] eqn:Hf; simpl.
  - exists (JArr []). split; [reflexivity | congruence].
  - destruct (ok r) eqn:Hok; simpl.
    + destruct (text r) as [e|body] eqn:Ht; simpl;
        [exists (JArr []); split; [reflexivity | congruence]|].
      destruct (truthy_string body); simpl;
        [|exists (JArr []); split; [reflexivity | congruence]].
      destruct (JSON_parse body) as [e|v] eqn:Hp; simpl;
        [exists (JArr []); split; [reflexivity | congruence]|].
      destruct v; simpl;
        try (eexists; split; [reflexivity|]; intros _; exists r, body; auto; fail).
      exists (JArr []). split; [reflexivity | congruence].
    + destruct (text r); simpl; exists (JArr []); split; try reflexivity; congruence.
Qed.

End ApiRequests.


Lemma api_getPostBySlug_tolerant_witness :
  exists v,
    Api.getPostBySlug parse_media (fun _ => Resolved (mkResponse true 200 "OK" (inr "{}")))
                      production_legacy _ URL_new_sample URL_searchParams_sample
                      URL_toString_sample "rooms" "deluxe" = inr v.
Proof.
  destruct (api_getPostBySlug_tolerant parse_media
              (fun _ => Resolved (mkResponse true 200 "OK" (inr "{}")))
              production_legacy _ URL_new_sample URL_searchParams_sample
              URL_toString_sample "rooms" "deluxe") as (v & Hv & _).
  exists v. exact Hv.
Defined.


Lemma getRooms_outcomes_witness :
  Api.getRooms parse_sample (fun _ => Resolved (mkResponse true 200 "OK" (inr "{}")))
               production_legacy
  = inr (JObj []).
Proof.
  apply (proj1 (getRooms_outcomes parse_sample
                  (fun _ => Resolved (mkResponse true 200 "OK" (inr "{}")))
                  production_legacy)
               (mkResponse true 200 "OK" (inr "{}")) "{}");
    try reflexivity; discriminate.
Defined.

(** ** Room types: normalisation, loading, text *)

Lemma set_field_twice {V : Type} (k : string) (v w : V) (o : list (string * V)) :
  set_field k w (set_field k v o) = set_field k w o.
Proof.
  induction o as [|[k' v'] o IH]; simpl.
  - rewrite String.eqb_refl. reflexivity.
  - destruct (String.eqb k k') eqn:E; simpl.
    + rewrite String.eqb_refl. reflexivity.
    + rewrite E, IH. reflexivity.
Qed.

(** X17.  Normalising a room twice is normalising it once. *)
Theorem normalizeRoom_idempotent (room : RoomTypesSection.Room) :
  RoomTypesSection.normalizeRoom (RoomTypesSection.normalizeRoom room)
  = RoomTypesSection.normalizeRoom room.
Proof.
  unfold RoomTypesSection.normalizeRoom.
  destruct (RoomTypesSection.acf room) as [a|] eqn:Ha; [|rewrite Ha; reflexivity].
  simpl. rewrite get_set_field_same. simpl. rewrite set_field_twice. reflexivity.
Qed.

(** X18.  Normalisation touches the gallery and nothing else: the rooms keep
    their number and order, each room keeps its id, title, content, images and
    every custom field but [gallery], and its image URL is what it was. *)
Theorem normalization_preserves (l : list RoomTypesSection.Room) :
  length (RoomTypesSection.getNormalizedRooms (Some l)) = length l
  /\ map RoomTypesSection.id (RoomTypesSection.getNormalizedRooms (Some l))
     = map RoomTypesSection.id l
  /\ map RoomTypesSection.getImageUrl (RoomTypesSection.getNormalizedRooms (Some l))
     = map RoomTypesSection.getImageUrl l
  /\ forall room, In room l ->
       let room' := RoomTypesSection.normalizeRoom room in
       RoomTypesSection.title room' = RoomTypesSection.title room
       /\ RoomTypesSection.content room' = RoomTypesSection.content room
       /\ RoomTypesSection.better_featured_image room'
          = RoomTypesSection.better_featured_image room
       /\ RoomTypesSection.featuredmedia room' = RoomTypesSection.featuredmedia room
       /\ forall a a' k,
            RoomTypesSection.acf room = Some a ->
            RoomTypesSection.acf room' = Some a' -> k <> "gallery" ->
            get_field k a' = get_field k a.
Proof.
  assert (Hfields : forall room,
            let room' := RoomTypesSection.normalizeRoom room in
            RoomTypesSection.id room' = RoomTypesSection.id room
            /\ RoomTypesSection.title room' = RoomTypesSection.title room
            /\ RoomTypesSection.content room' = RoomTypesSection.content room
            /\ RoomTypesSection.better_featured_image room'
               = RoomTypesSection.better_featured_image room
            /\ RoomTypesSection.featuredmedia room' = RoomTypesSection.featuredmedia room).
  { intros room. unfold RoomTypesSection.normalizeRoom.
    destruct (RoomTypesSection.acf room); simpl; auto 10. }
  assert (Himg : forall room,
            RoomTypesSection.getImageUrl (RoomTypesSection.normalizeRoom room)
            = RoomTypesSection.getImageUrl room).
  { intros room. destruct (Hfields room) as (_ & _ & _ & Hb & Hf).
    unfold RoomTypesSection.getImageUrl, RoomTypesSection.embedded_media.
    cbv zeta in Hb, Hf. rewrite Hb, Hf. reflexivity. }
  simpl. rewrite length_map, !map_map. repeat split.
  - apply map_ext. intros room. apply (Hfields room).
  - apply map_ext. exact Himg.
  - apply (Hfields room).
  - apply (Hfields room).
  - apply (Hfields room).
  - apply (Hfields room).
  - intros a a' k Ha Ha' Hk. unfold RoomTypesSection.normalizeRoom in Ha'.
    rewrite Ha in Ha'. simpl in Ha'. injection Ha' as <-.
    apply get_set_field_other. exact Hk.
Qed.

Lemma normalization_preserves_witness :
  get_field "size"
    [("size", JStr "30m2"); ("gallery", JArr [])] = get_field "size" [("size", JStr "30m2")].
Proof.
  pose proof (normalization_preserves [room_with_acf (Some [("size", JStr "30m2")])])
    as (_ & _ & _ & H).
  destruct (H (room_with_acf (Some [("size", JStr "30m2")])) (or_introl eq_refl))
    as (_ & _ & _ & _ & Hacf).
  apply (Hacf [("size", JStr "30m2")] [("size", JStr "30m2"); ("gallery", JArr [])] "size");
    [reflexivity | reflexivity | discriminate].
Defined.

Lemma rooms_failure_gives_empty
      (JSON_parse : string -> Error + json) (fetch : string -> fetch_outcome)
      (env : ProcessEnv) :
  Api.rooms_failure JSON_parse (fetch (Api.rooms_url env)) ->
  Api.getRooms JSON_parse fetch env = inr (JArr []).
Proof.
  intros Hfail. unfold Api.getRooms.
  inversion Hfail as [e He | r Hok He | r e Ht He | r Ht He | r b e Ht Hp He];
    simpl; rewrite ?Hok, ?Ht; simpl; try reflexivity.
  - destruct (text r); reflexivity.
  - destruct (ok r); reflexivity.
  - destruct (ok r); reflexivity.
  - destruct (ok r); simpl; [|reflexivity].
    destruct (truthy_string b); [|reflexivity].
    simpl. rewrite Hp. reflexivity.
Qed.

(** X19.  The room-types section never shows its error panel: whatever the
    network does, after loading the error state is unset and loading is over;
    and when the request fails in any of its failure modes, the section holds
    the empty list. *)
Theorem section_load_never_errors
        (JSON_parse : string -> Error + json) (fetch : string -> fetch_outcome)
        (env : ProcessEnv) :
  let s := RoomTypesSection.fetchRooms (Api.getRooms JSON_parse fetch env)
                                       RoomTypesSection.initialSectionState in
  RoomTypesSection.error_of s = None
  /\ RoomTypesSection.loading s = false
  /\ (Api.rooms_failure JSON_parse (fetch (Api.rooms_url env)) ->
      RoomTypesSection.rooms_of s = JArr []).
Proof.
  cbv zeta. split; [|split].
  - destruct (getRooms_never_rejects JSON_parse fetch env) as [v ->]. reflexivity.
  - destruct (getRooms_never_rejects JSON_parse fetch env) as [v ->]. reflexivity.
  - intros Hfail. rewrite (rooms_failure_gives_empty _ _ _ Hfail). reflexivity.
Qed.

Lemma section_load_never_errors_witness :
  RoomTypesSection.rooms_of
    (RoomTypesSection.fetchRooms (Api.getRooms parse_sample fetch_404 production_legacy)
                                 RoomTypesSection.initialSectionState)
  = JArr [].
Proof.
  apply (proj2 (proj2 (section_load_never_errors parse_sample fetch_404 production_legacy))).
  apply Api.non_2xx. reflexivity.
Defined.

Lemma replace_tags_shorter (inside : bool) (s : string) :
  (String.length (RoomTypesSection.replace_tags inside s) <= String.length s)%nat.
Proof.
  revert inside. induction s as [|c s IH]; intros inside; simpl; [lia|].
  destruct inside.
  - destruct (Ascii.eqb c ">"%char); [specialize (IH false) | specialize (IH true)]; lia.
  - destruct (Ascii.eqb c "<"%char).
    + destruct (RoomTypesSection.has_gt s); simpl; [specialize (IH true)|]; lia.
    + simpl. specialize (IH false). lia.
Qed.

Lemma replace_tags_fixed (s : string) :
  RoomTypesSection.replace_tags false (RoomTypesSection.replace_tags false s)
  = RoomTypesSection.replace_tags false s
  /\ RoomTypesSection.replace_tags false (RoomTypesSection.replace_tags true s)
     = RoomTypesSection.replace_tags true s.
Proof.
  induction s as [|c s [IHf IHt]]; simpl; [split; reflexivity|]. split.
  - destruct (Ascii.eqb c "<"%char) eqn:Ec.
    + destruct (RoomTypesSection.has_gt s) eqn:Hgt; simpl.
      * rewrite IHt. reflexivity.
      * rewrite Ec, Hgt. reflexivity.
    + simpl. rewrite Ec, IHf. reflexivity.
  - destruct (Ascii.eqb c ">"%char); assumption.
Qed.

Lemma replace_tags_plain (s : string) :
  string_forallb (fun c => negb (Ascii.eqb c "<"%char)) s = true ->
  RoomTypesSection.replace_tags false s = s.
Proof.
  induction s as [|c s IH]; simpl; [reflexivity|].
  intros H. apply andb_true_iff in H. destruct H as [Hc Hs].
  apply negb_true_iff in Hc. rewrite Hc, (IH Hs). reflexivity.
Qed.

(** X20.  Taking the tags out of a text: the result is no longer than the
    text, a text without [<] is left as it is, and nothing is left to take out
    of the result (doing it twice is doing it once). *)
Theorem replace_tags_properties (s : string) :
  (String.length (RoomTypesSection.replace_tags false s) <= String.length s)%nat
  /\ (string_forallb (fun c => negb (Ascii.eqb c "<"%char)) s = true ->
      RoomTypesSection.replace_tags false s = s)
  /\ RoomTypesSection.replace_tags false (RoomTypesSection.replace_tags false s)
     = RoomTypesSection.replace_tags false s.
Proof.
  split; [apply replace_tags_shorter|]. split; [apply replace_tags_plain|].
  apply replace_tags_fixed.
Qed.

Lemma replace_tags_properties_witness :
  RoomTypesSection.replace_tags false "Sea view, 2 > 1" = "Sea view, 2 > 1".
Proof.
  apply (proj1 (proj2 (replace_tags_properties "Sea view, 2 > 1"))). reflexivity.
Defined.

Example replace_tags_paragraph :
  RoomTypesSection.replace_tags false "<p>Quiet <b>garden</b> room.</p> a < b"
  = " Quiet  garden  room.  a < b".
Proof. reflexivity. Qed.

(** ** Booking form: validation, guests, submit *)

Section FormFacts.
Import BookingForm.

(** X22.  What a valid form is.  [validateForm] accepts a form exactly when
    both dates are set, the check-out is not before the check-in, a room is
    chosen (neither empty nor the "select" placeholder) and there is at least
    one adult.  Check-out on the check-in instant itself is accepted. *)
Theorem validateForm_accepts (f : FormData) :
  validateForm f = true
  <-> (exists ci co, checkIn f = Some ci /\ checkOut f = Some co /\ ci <= co)
      /\ roomType f <> "" /\ roomType f <> "select" /\ 1 <= adults f.
Proof.
  unfold validateForm, validateForm_errors, isBefore. simpl.
  destruct (checkIn f) as [ci|], (checkOut f) as [co|]; simpl.
  - destruct (Z.ltb_spec co ci); simpl.
    + split; [discriminate|]. intros ((ci' & co' & E1 & E2 & Hle) & _).
      injection E1 as <-. injection E2 as <-. lia.
    + destruct (truthy_string (roomType f)) eqn:Ht; simpl.
      * apply truthy_string_true in Ht.
        destruct (String.eqb_spec (roomType f) "select"); simpl.
        -- split; [discriminate | tauto].
        -- destruct (Z.ltb_spec (adults f) 1); simpl.
           ++ split; [discriminate|]. intros (_ & _ & _ & Ha). lia.
           ++ split; [|reflexivity]. intros _. split; [|auto]. exists ci, co. auto.
      * apply truthy_string_false in Ht. split; [discriminate | tauto].
  - split; [discriminate|]. intros ((ci' & co' & _ & E & _) & _). discriminate.
  - split; [discriminate|]. intros ((ci' & co' & E & _) & _). discriminate.
  - split; [discriminate|]. intros ((ci' & co' & E & _) & _). discriminate.
Qed.

Lemma validateForm_accepts_witness :
  validateForm (mkForm (Some jun12) (Some jun12) "deluxe" 1 0) = true.
Proof.
  apply (proj2 (validateForm_accepts (mkForm (Some jun12) (Some jun12) "deluxe" 1 0))).
  split; [exists jun12, jun12; repeat split; discriminate|].
  repeat split; try discriminate.
Defined.



End FormFacts.

Section FormDates.
Import BookingForm.

(** date-fns [addDays], whatever the time zone makes of it. *)
Variable addDays : Z -> Z -> Z.

Lemma edit_keeps_range (e : Edit) (f : FormData) :
  (1 <= adults f <= 10 /\ 0 <= children f <= 10
   /\ checkIn f <> None /\ checkOut f <> None) ->
  1 <= adults (edit addDays e f) <= 10 /\ 0 <= children (edit addDays e f) <= 10
  /\ checkIn (edit addDays e f) <> None /\ checkOut (edit addDays e f) <> None.
Proof.
  intros (Ha & Hc & Hi & Ho).
  destruct e as [[d|]|[d|]|value|[v|]|[v|]]; simpl; auto;
    try (unfold clamp; repeat split; try assumption; lia).
  - unfold edit, pickCheckIn, checkOutEffect. simpl.
    destruct (checkOut f) as [co|]; [|congruence].
    destruct (isBefore co d); simpl;
      (split; [lia | split; [lia | split; discriminate]]).
  - split; [lia | split; [lia | split; [assumption | discriminate]]].
Qed.

(** X24.  An invariant of the form.  From the initial form, after any
    sequence of edits (date picks, with or without a date, room choices, guest
    entries, numeric or not) the adults are within 1..10, the children within
    0..10 and both dates are set; so validation can only ever fail on the
    order of the dates or on the room. *)
Theorem form_invariant (now1 now2 : Z) (es : list Edit) :
  let f := edits addDays es (initialFormData addDays now1 now2) in
  1 <= adults f <= 10 /\ 0 <= children f <= 10
  /\ checkIn f <> None /\ checkOut f <> None
  /\ err_checkIn (validateForm_errors f) = None
  /\ err_adults (validateForm_errors f) = None.
Proof.
  cbv zeta.
  assert (H : forall f,
             (1 <= adults f <= 10 /\ 0 <= children f <= 10
              /\ checkIn f <> None /\ checkOut f <> None) ->
             1 <= adults (edits addDays es f) <= 10
             /\ 0 <= children (edits addDays es f) <= 10
             /\ checkIn (edits addDays es f) <> None
             /\ checkOut (edits addDays es f) <> None).
  { unfold edits. induction es as [|e es IH]; intros f Hf; simpl; [exact Hf|].
    apply IH, edit_keeps_range, Hf. }
  destruct (H (initialFormData addDays now1 now2)) as (Ha & Hc & Hi & Ho).
  { simpl. repeat split; try lia; discriminate. }
  repeat split; try assumption; try lia.
  - unfold validateForm_errors. simpl.
    destruct (checkIn (edits addDays es (initialFormData addDays now1 now2))); congruence.
  - unfold validateForm_errors. simpl.
    destruct (Z.ltb_spec (adults (edits addDays es (initialFormData addDays now1 now2))) 1);
      [lia | reflexivity].
Qed.

(** X25.  A check-out picked before the check-in is not corrected: the form
    keeps it, validation refuses the form with the message for the check-out,
    and a check-in pick afterwards repairs it, moving the check-out to the
    check-in plus one day as [addDays] gives it. *)
Theorem early_checkOut_not_corrected (f : FormData) (ci d : Z) :
  checkIn f = Some ci -> d < ci ->
  checkOut (pickCheckOut (Some d) f) = Some d
  /\ validateForm (pickCheckOut (Some d) f) = false
  /\ err_checkOut (validateForm_errors (pickCheckOut (Some d) f))
     = Some "Check-out date must be after check-in date"
  /\ checkOut (pickCheckIn addDays (Some ci) (pickCheckOut (Some d) f))
     = Some (addDays ci 1).
Proof.
  intros Hci Hlt.
  unfold validateForm, validateForm_errors, pickCheckIn, checkOutEffect, pickCheckOut,
    isBefore. simpl. rewrite Hci. simpl.
  destruct (Z.ltb_spec d ci); [|lia]. simpl. auto.
Qed.

(** X26.  After a check-in pick on a form that has a check-out date,
    validation reports nothing about the dates; and picking the same check-in
    date again changes nothing.  (Given that a day added to the check-in does
    not lead back in time.) *)
Theorem pickCheckIn_dates_valid (f : FormData) (d co : Z) :
  checkOut f = Some co ->
  d <= addDays d 1 ->
  err_checkIn (validateForm_errors (pickCheckIn addDays (Some d) f)) = None
  /\ err_checkOut (validateForm_errors (pickCheckIn addDays (Some d) f)) = None
  /\ pickCheckIn addDays (Some d) (pickCheckIn addDays (Some d) f)
     = pickCheckIn addDays (Some d) f.
Proof.
  intros Hco Hday. unfold validateForm_errors, pickCheckIn, checkOutEffect, isBefore.
  repeat (simpl; rewrite ?Hco;
          try match goal with
              | |- context [?a <? ?b] => destruct (Z.ltb_spec a b); try lia
              end).
  all: auto.
Qed.

End FormDates.

Lemma early_checkOut_not_corrected_witness :
  BookingForm.validateForm
    (BookingForm.pickCheckOut (Some jun10)
       (BookingForm.mkForm (Some jun12) (Some jun13) "deluxe" 2 0))
  = false.
Proof.
  apply (proj1 (proj2 (early_checkOut_not_corrected addDays_24h
           (BookingForm.mkForm (Some jun12) (Some jun13) "deluxe" 2 0) jun12 jun10
           eq_refl eq_refl))).
Defined.

Lemma pickCheckIn_dates_valid_witness :
  BookingForm.err_checkOut
    (BookingForm.validateForm_errors
       (BookingForm.pickCheckIn addDays_24h (Some jun12)
          (BookingForm.mkForm (Some jun10) (Some jun11) "select" 2 0)))
  = None.
Proof.
  refine (proj1 (proj2 (pickCheckIn_dates_valid addDays_24h
            (BookingForm.mkForm (Some jun10) (Some jun11) "select" 2 0) jun12 jun11
            eq_refl _))).
  unfold addDays_24h, jun12. lia.
Defined.

(** ** Booking form: submit *)

Section SubmitFacts.
Import BookingForm.

Variable format_yyyy_MM_dd : Z -> string.
Variable roomTypes : list WPRoom.

Lemma validateForm_dates (f : FormData) :
  validateForm f = true ->
  exists ci co, checkIn f = Some ci /\ checkOut f = Some co /\ ci <= co.
Proof.
  unfold validateForm, validateForm_errors, isBefore. simpl.
  destruct (checkIn f) as [ci|], (checkOut f) as [co|]; simpl; try discriminate.
  destruct (Z.ltb_spec co ci); simpl; [discriminate|].
  intros _. exists ci, co. auto.
Qed.

(** X27.  Submit navigates exactly when the form is valid, and then to
    [/booking] with the two formatted dates, the room id and the guest counts
    as the query.  The room id is that of the first loaded room with the chosen
    slug; it is empty when no loaded room has that slug. *)
Theorem handleSubmit_navigation (f : FormData) :
  (handleSubmit format_yyyy_MM_dd roomTypes f = None <-> validateForm f = false)
  /\ (forall url, handleSubmit format_yyyy_MM_dd roomTypes f = Some url ->
        exists ci co,
          checkIn f = Some ci /\ checkOut f = Some co /\ ci <= co
          /\ url = "/booking?checkIn=" ++ format_yyyy_MM_dd ci
                   ++ "&checkOut=" ++ format_yyyy_MM_dd co
                   ++ "&roomId=" ++ roomId roomTypes f
                   ++ "&adults=" ++ Number_toString (adults f)
                   ++ "&children=" ++ Number_toString (children f))
  /\ ((forall room, In room roomTypes -> slug room <> roomType f) ->
      roomId roomTypes f = "")
  /\ (forall before room after,
        roomTypes = (before ++ room :: after)%list ->
        (forall r, In r before -> slug r <> roomType f) ->
        slug room = roomType f -> id room <> 0 ->
        roomId roomTypes f = Number_toString (id room)).
Proof.
  split; [|split; [|split]].
  - unfold handleSubmit. destruct (validateForm f) eqn:Hv; simpl.
    + apply validateForm_dates in Hv. destruct Hv as (ci & co & -> & -> & _).
      split; discriminate.
    + split; reflexivity.
  - intros url. unfold handleSubmit. destruct (validateForm f) eqn:Hv; simpl; [|discriminate].
    apply validateForm_dates in Hv. destruct Hv as (ci & co & Hci & Hco & Hle).
    rewrite Hci, Hco. intros E. injection E as <-. exists ci, co. auto.
  - intros Hnone. unfold roomId.
    destruct (find (fun room => String.eqb (slug room) (roomType f)) roomTypes)
      as [room|] eqn:Hfind; [|reflexivity].
    apply find_some in Hfind. destruct Hfind as [Hin Heq].
    apply String.eqb_eq in Heq. destruct (Hnone room Hin Heq).
  - intros before room after -> Hbefore Hslug Hid. unfold roomId.
    assert (Hfind : find (fun r => String.eqb (slug r) (roomType f))
                         (before ++ room :: after) = Some room).
    { induction before as [|r before IH]; simpl.
      - rewrite Hslug, String.eqb_refl. reflexivity.
      - destruct (String.eqb_spec (slug r) (roomType f)) as [E|_].
        + destruct (Hbefore r (or_introl eq_refl) E).
        + apply IH. intros r' Hr'. apply Hbefore. right. exact Hr'. }
    rewrite Hfind. simpl. destruct (Z.eqb_spec (id room) 0); [contradiction | reflexivity].
Qed.

(** X28.  With the room left at the "select" placeholder, or empty, submit
    does not navigate and validation records "Please select a room type",
    whatever the dates and the guests are. *)
Theorem unselected_room_blocks_submit (f : FormData) :
  roomType f = "select" \/ roomType f = "" ->
  handleSubmit format_yyyy_MM_dd roomTypes f = None
  /\ err_roomType (validateForm_errors f) = Some "Please select a room type".
Proof.
  intros Hroom.
  assert (Herr : err_roomType (validateForm_errors f) = Some "Please select a room type").
  { unfold validateForm_errors. simpl. destruct Hroom as [-> | ->]; reflexivity. }
  split; [|exact Herr].
  unfold handleSubmit, validateForm. rewrite Herr. simpl.
  rewrite andb_false_r. reflexivity.
Qed.

End SubmitFacts.

Lemma handleSubmit_navigation_witness :
  BookingForm.handleSubmit format_utc [dorm; deluxe; twin]
               (BookingForm.mkForm (Some jul01) (Some jul04) "deluxe" 2 1)
  = Some "/booking?checkIn=2024-07-01&checkOut=2024-07-04&roomId=17&adults=2&children=1".
Proof.
  pose proof (handleSubmit_navigation format_utc [dorm; deluxe; twin]
                (BookingForm.mkForm (Some jul01) (Some jul04) "deluxe" 2 1)) as (_ & Hurl & _ & Hid).
  destruct (BookingForm.handleSubmit format_utc [dorm; deluxe; twin]
              (BookingForm.mkForm (Some jul01) (Some jul04) "deluxe" 2 1)) as [url|] eqn:E;
    [|discriminate E].
  destruct (Hurl url eq_refl) as (ci & co & Hci & Hco & _ & ->).
  injection Hci as <-. injection Hco as <-.
  rewrite (Hid [dorm] deluxe [twin] eq_refl); [reflexivity | | reflexivity | discriminate].
  intros r [<-|[]]. discriminate.
Defined.

Lemma unselected_room_blocks_submit_witness :
  BookingForm.handleSubmit format_utc [dorm; deluxe; twin] (BookingForm.initialFormData addDays_24h jun10 jun10) = None.
Proof.
  apply (proj1 (unselected_room_blocks_submit format_utc [dorm; deluxe; twin]
                  (BookingForm.initialFormData addDays_24h jun10 jun10) (or_introl eq_refl))).
Defined.

(** ** Booking form: the list of rooms *)

Section RoomList.
Import BookingForm.

Lemma insert_room_perm (room : WPRoom) (l : list WPRoom) :
  Permutation (room :: l) (insert_room room l).
Proof.
  induction l as [|r l IH]; simpl; [apply Permutation_refl|].
  destruct (price_key room <=? price_key r); [apply Permutation_refl|].
  eapply perm_trans; [apply perm_swap|]. apply perm_skip. exact IH.
Qed.

Lemma insert_room_Forall (P : WPRoom -> Prop) (room : WPRoom) (l : list WPRoom) :
  P room -> Forall P l -> Forall P (insert_room room l).
Proof.
  intros Hp Hl. induction Hl as [|r l Hr Hl IH]; simpl; [auto|].
  destruct (price_key room <=? price_key r); auto.
Qed.

Lemma insert_room_sorted (room : WPRoom) (l : list WPRoom) :
  StronglySorted (fun a b => price_key a <= price_key b) l ->
  StronglySorted (fun a b => price_key a <= price_key b) (insert_room room l).
Proof.
  induction 1 as [|r l Hs IH Hall]; simpl; [repeat constructor|].
  destruct (Z.leb_spec (price_key room) (price_key r)) as [Hle|Hgt].
  - constructor; [constructor; assumption|].
    constructor; [exact Hle|].
    eapply Forall_impl; [|exact Hall]. simpl. intros; lia.
  - constructor; [exact IH|].
    apply insert_room_Forall; [lia | exact Hall].
Qed.

Lemma insert_room_filter (p : Z) (room : WPRoom) (l : list WPRoom) :
  filter (fun r => price_key r =? p) (insert_room room l)
  = filter (fun r => price_key r =? p) (room :: l).
Proof.
  induction l as [|r l IH]; simpl; [reflexivity|].
  destruct (Z.leb_spec (price_key room) (price_key r)) as [Hle|Hgt]; [reflexivity|].
  simpl in *. rewrite IH.
  destruct (Z.eqb_spec (price_key room) p), (Z.eqb_spec (price_key r) p);
    try reflexivity; lia.
Qed.

(** X29.  The rooms in the select are the loaded rooms, each once, in
    ascending order of price, a room without a price counting as price 0; rooms
    of equal price keep the order they were loaded in. *)
Theorem sortedRooms_sorted (rooms : list WPRoom) :
  Permutation rooms (sortedRooms rooms)
  /\ StronglySorted (fun a b => price_key a <= price_key b) (sortedRooms rooms)
  /\ forall p, filter (fun r => price_key r =? p) (sortedRooms rooms)
               = filter (fun r => price_key r =? p) rooms.
Proof.
  unfold sortedRooms. induction rooms as [|room rooms (IHp & IHs & IHf)]; simpl.
  - repeat split; constructor.
  - split; [|split].
    + eapply perm_trans; [apply perm_skip, IHp | apply insert_room_perm].
    + apply insert_room_sorted, IHs.
    + intros p. rewrite insert_room_filter. simpl. rewrite IHf. reflexivity.
Qed.

End RoomList.

(** ** Booking form: loading the rooms *)

Section RoomLoad.
Import BookingForm.

Lemma enhanceRoom_fields (rates : list (Z * WPRoomACF)) (room : WPRoom) :
  id (enhanceRoom rates room) = id room
  /\ slug (enhanceRoom rates room) = slug room
  /\ title (enhanceRoom rates room) = title room
  /\ featured_title (enhanceRoom rates room) = featured_title room
  /\ acf (enhanceRoom rates room) = acf room.
Proof. repeat split. Qed.

Lemma enhanceRoom_own_rate (rates : list (Z * WPRoomACF)) (room : WPRoom) :
  truthy (room_rates room) = true -> enhanceRoom rates room = room.
Proof.
  intros H. unfold enhanceRoom, or_opt. rewrite H. destruct room; reflexivity.
Qed.

Variable getRooms : Error + list WPRoom.
Variable fetch : string -> fetch_outcome.
Variable rates_json : string -> Error + list (Z * option WPRoomACF).
Variable env : ProcessEnv.

Lemma fetchRates_never_rejects :
  exists rates, fetchRates fetch rates_json env = inr rates.
Proof.
  unfold fetchRates.
  match goal with |- context [catch ?c _] => destruct c eqn:E end;
    simpl; rewrite ?E; eexists; reflexivity.
Qed.

(** X30.  Loading the rooms of the booking form, with best-effort rates.
    When the rooms request gives a list that is not empty the load succeeds
    whatever the rates request does: no error is set, and the rooms are the
    ones loaded, in their order, with the same ids, slugs and custom fields,
    a room that has its own rate string unchanged.  When the rooms request
    gives the empty list or fails, the error message is set and the rooms are
    left as they were. *)
Theorem booking_rooms_load (s : RoomsState) :
  (forall rooms, getRooms = inr rooms -> rooms <> [] ->
     let s' := fetchRooms getRooms fetch rates_json env s in
     roomsError s' = None /\ isLoadingRooms s' = false
     /\ map id (roomTypes_of s') = map id rooms
     /\ map slug (roomTypes_of s') = map slug rooms
     /\ map acf (roomTypes_of s') = map acf rooms
     /\ (forall room, In room rooms -> truthy (room_rates room) = true ->
          In room (roomTypes_of s')))
  /\ (getRooms = inr [] \/ (exists e, getRooms = inl e) ->
      fetchRooms getRooms fetch rates_json env s
      = mkRoomsState (roomTypes_of s) false
          (Some "Failed to load room information. Please try again later.")).
Proof.
  split.
  - intros rooms Hr Hne. cbv zeta. unfold fetchRooms. rewrite Hr. simpl.
    destruct rooms as [|room rooms]; [congruence|]. simpl Nat.eqb. cbv iota.
    destruct fetchRates_never_rejects as [rates ->]. simpl.
    split; [reflexivity|]. split; [reflexivity|].
    split; [f_equal; rewrite map_map; apply map_ext; intros r; reflexivity|].
    split; [f_equal; rewrite map_map; apply map_ext; intros r; reflexivity|].
    split; [f_equal; rewrite map_map; apply map_ext; intros r; reflexivity|].
    intros r Hin Ht.
    change (In r (map (enhanceRoom rates) (room :: rooms))).
    apply in_map_iff. exists r. split; [apply enhanceRoom_own_rate; exact Ht | exact Hin].
  - intros [Hr|[e Hr]]; unfold fetchRooms; rewrite Hr; reflexivity.
Qed.

End RoomLoad.

Lemma booking_rooms_load_witness :
  BookingForm.roomsError
    (BookingForm.fetchRooms (inr [dorm; deluxe; twin]) fetch_404 rates_sample
                            production_primary BookingForm.initialRoomsState)
  = None.
Proof.
  apply (proj1 (booking_rooms_load (inr [dorm; deluxe; twin]) fetch_404 rates_sample
                  production_primary BookingForm.initialRoomsState)
               [dorm; deluxe; twin] eq_refl).
  discriminate.
Defined.

Example booking_rooms_rates_filled :
  map BookingForm.rate
      (BookingForm.roomTypes_of
         (BookingForm.fetchRooms (inr [dorm; deluxe; twin])
            (fun _ => Resolved (mkResponse true 200 "OK" (inr "{}")))
            rates_sample production_primary BookingForm.initialRoomsState))
  = ["K120"; "K450"; "K300"].
Proof. reflexivity. Qed.

(** ** Booking form: the short description *)

Lemma split_head (sep : ascii) (s : string) :
  exists w ws,
    split sep s = w :: ws
    /\ string_forallb (fun c => negb (Ascii.eqb c sep)) w = true
    /\ ((s = w /\ ws = []) \/ exists rest, s = (w ++ String sep rest)%string).
Proof.
  induction s as [|c s (w & ws & Hs & Hw & Hrest)]; simpl.
  - exists "", []. auto.
  - destruct (Ascii.eqb c sep) eqn:Ec.
    + apply Ascii.eqb_eq in Ec. subst c. exists "", (split sep s).
      split; [reflexivity|]. split; [reflexivity|]. right. exists s. reflexivity.
    + rewrite Hs. exists (String c w), ws.
      split; [reflexivity|]. split; [simpl; rewrite Ec, Hw; reflexivity|].
      destruct Hrest as [[-> ->]|[rest ->]]; [left; auto | right; exists rest; reflexivity].
Qed.

(** X9.  The short description is the description up to its first full
    stop: it holds no full stop, and the description is the short description
    alone or the short description, a full stop and the rest. *)
Theorem shortDescription_first_sentence (description : string) :
  string_forallb (fun c => negb (Ascii.eqb c "."%char))
                 (BookingForm.shortDescription description) = true
  /\ (description = BookingForm.shortDescription description
      \/ exists rest,
           description
           = (BookingForm.shortDescription description ++ String "."%char rest)%string).
Proof.
  unfold BookingForm.shortDescription.
  destruct (split_head "."%char description) as (w & ws & -> & Hw & Hrest).
  simpl. assert (E : (if truthy_string w then w else "") = w).
  { destruct (truthy_string w) eqn:Ht; [reflexivity|].
    apply truthy_string_false in Ht. congruence. }
  rewrite E. split; [exact Hw|].
  destruct Hrest as [[-> _]|[rest ->]]; [left; reflexivity | right; exists rest; reflexivity].
Qed.
